(** * TaskBuildIndex: the indexing coordinator of Sourcetrail

    A shallow embedding of [src/lib/data/indexer/TaskBuildIndex.cpp].

    The task object, the shared memory behind the interprocess
    managers, the storage provider, the blackboard and the dialog view
    are gathered in one [World] record.  Every member function is a
    computation in a state and fault monad over that record: a fault
    stands for an operation the C++ code must never reach (division by
    zero or with a quotient out of range, indexing a vector out of its
    bounds, popping an empty shared queue) or for a blocking call that
    does not return within the observed run.

    A member function runs against the world as it finds it; what other
    threads do meanwhile enters through oracles only: successive
    readings of the wall clock, the progress of the downstream merge of
    the storage provider while the task sleeps, and the outcome of each
    launch of the indexer executable, including an interrupt raised
    while the process ran.  Mutexes have no effect of their own in this
    setting, and a [join] returns. *)

From Stdlib Require Import ZArith Lia Ascii String.
From stdpp Require Import base option list strings gmap pretty.

Local Open Scope Z_scope.

(** ** Machine integers

    [int] is a 32-bit two's complement integer.  Sums and products of
    blackboard values are reduced to that range; division truncates
    towards zero and has no result on a zero divisor, nor for the one
    quotient that does not fit, the least [int] divided by [-1]. *)

Module Int.

Definition modulus : Z := 2 ^ 32.
Definition min_signed : Z := - 2 ^ 31.
Definition max_signed : Z := 2 ^ 31 - 1.

Definition in_range (z : Z) : Prop := min_signed <= z <= max_signed.

Definition wrap (z : Z) : Z :=
  (z - min_signed) mod modulus + min_signed.

Definition add (a b : Z) : Z := wrap (a + b).
Definition mul (a b : Z) : Z := wrap (a * b).

Inductive quotient : Type :=
| Quotient (q : Z)
| DivideByZero
| QuotientOverflow.

Definition representable (a b : Z) : bool :=
  negb ((a =? min_signed) && (b =? -1)).

Definition div (a b : Z) : quotient :=
  if b =? 0 then DivideByZero
  else if representable a b then Quotient (Z.quot a b)
  else QuotientOverflow.

End Int.

(** ** Data *)

(** [Id] is an unsigned machine word; slot [0] is the main process. *)
Definition Id : Type := N.

Definition FilePath : Type := string.

(** An indexer command is an opaque unit of work, named by its source file. *)
Record IndexerCommand : Type := { sourceFilePath : FilePath }.

(** The arguments of the [StorageErrorData] constructor, in call order. *)
Record StorageErrorData : Type := {
  message : string;
  filePath : string;
  lineNumber : Z;
  columnNumber : Z;
  translationUnit : string;
  fatal : bool;
  indexed : bool;
}.

(** Modelled from the spec: [IntermediateStorage] and its [addError] are
    declared outside this file.  A bundle is an opaque body of extracted
    facts plus its error records, and [addError] appends one record. *)
Record IntermediateStorage : Type := {
  storedFacts : list string;
  storedErrors : list StorageErrorData;
}.

Definition emptyStorage : IntermediateStorage :=
  {| storedFacts := []; storedErrors := [] |}.

Definition addError (e : StorageErrorData) (s : IntermediateStorage) : IntermediateStorage :=
  {| storedFacts := storedFacts s; storedErrors := storedErrors s ++ [e] |}.

(** A blackboard item carries the type it was stored with. *)
Inductive BlackboardItem : Type :=
| ItemInt (z : Z)
| ItemBool (b : bool).

(** A worker thread handle is the routine it was started with. *)
Inductive Thread : Type :=
| ProcessThread (processId : Id) (logFilePath : string)
| WorkerThread (processId : Id).

(** One launch of the indexer executable: the exit code it returned, and
    whether an interrupt was raised by another thread while it ran. *)
Record ProcessRun : Type := {
  exitCode : Z;
  interruptedMeanwhile : bool;
}.

Inductive TaskState : Type :=
| STATE_RUNNING
| STATE_FAILURE.

(** Calls into collaborators that have no state of their own here. *)
Inductive Event : Type :=
| EvSleep (ms : Z)
| EvLogInfo (text : string)
| EvLogError (text : string)
| EvUpdateIndexingDialog (startedFileCount : nat) (indexedFileCount totalFileCount : Z)
                         (sourcePaths : list FilePath)
| EvIndexingStatus (showProgress : bool) (progress : Z)
| EvExecuteProcess (commandPath : string) (arguments : list string)
| EvKillRunningProcesses
| EvJoin (t : Thread).

(** ** State *)

(** The data members of [TaskBuildIndex]. *)
Record TaskBuildIndex : Type := {
  m_indexerCommandList : list IndexerCommand;
  m_appUUID : string;
  m_multiProcessIndexing : bool;
  m_processCount : nat;
  m_interrupted : bool;
  m_lastCommandCount : nat;
  m_indexingFileCount : nat;
  m_runningThreadCount : Z;
  m_processThreads : list Thread;
  m_interprocessIntermediateStorageManagers : list Id;
}.

(** The shared memory behind the interprocess managers: the command queue,
    the indexing status, and one queue of intermediate storages per
    process id. *)
Record SharedMemory : Type := {
  indexerCommands : list IndexerCommand;
  currentlyIndexedSourceFilePaths : list FilePath;
  finishedProcessIds : list Id;
  crashedSourceFilePaths : list FilePath;
  intermediateStorages : gmap N (list IntermediateStorage);
}.

(** Modelled from the spec: [StorageProvider] is declared outside this
    file.  It accepts bundles through [insert] and reports how many are
    not yet merged; [sp_storages] lists every bundle inserted so far, in
    order, and [sp_merged] counts those the downstream merge has taken. *)
Record StorageProvider : Type := {
  sp_storages : list IntermediateStorage;
  sp_merged : nat;
}.

(** What the task reads from its surroundings and never writes. *)
Record Environment : Type := {
  windows : bool;
  appPath : FilePath;
  userDataPath : FilePath;
  existingFiles : list FilePath;
  fileLoggerPath : option string;
  dialogsHiddenByUser : bool;
}.

Record World : Type := {
  task : TaskBuildIndex;
  shm : SharedMemory;
  provider : StorageProvider;
  blackboard : gmap string BlackboardItem;
  env : Environment;
  clock : list Z;
  mergeProgress : list nat;
  trace : list Event;
}.

(** *** Field updates *)

Definition set_m_interrupted (b : bool) (t : TaskBuildIndex) : TaskBuildIndex :=
  {| m_indexerCommandList := m_indexerCommandList t;
     m_appUUID := m_appUUID t;
     m_multiProcessIndexing := m_multiProcessIndexing t;
     m_processCount := m_processCount t;
     m_interrupted := b;
     m_lastCommandCount := m_lastCommandCount t;
     m_indexingFileCount := m_indexingFileCount t;
     m_runningThreadCount := m_runningThreadCount t;
     m_processThreads := m_processThreads t;
     m_interprocessIntermediateStorageManagers := m_interprocessIntermediateStorageManagers t |}.

Definition set_m_lastCommandCount (n : nat) (t : TaskBuildIndex) : TaskBuildIndex :=
  {| m_indexerCommandList := m_indexerCommandList t;
     m_appUUID := m_appUUID t;
     m_multiProcessIndexing := m_multiProcessIndexing t;
     m_processCount := m_processCount t;
     m_interrupted := m_interrupted t;
     m_lastCommandCount := n;
     m_indexingFileCount := m_indexingFileCount t;
     m_runningThreadCount := m_runningThreadCount t;
     m_processThreads := m_processThreads t;
     m_interprocessIntermediateStorageManagers := m_interprocessIntermediateStorageManagers t |}.

Definition set_m_indexingFileCount (n : nat) (t : TaskBuildIndex) : TaskBuildIndex :=
  {| m_indexerCommandList := m_indexerCommandList t;
     m_appUUID := m_appUUID t;
     m_multiProcessIndexing := m_multiProcessIndexing t;
     m_processCount := m_processCount t;
     m_interrupted := m_interrupted t;
     m_lastCommandCount := m_lastCommandCount t;
     m_indexingFileCount := n;
     m_runningThreadCount := m_runningThreadCount t;
     m_processThreads := m_processThreads t;
     m_interprocessIntermediateStorageManagers := m_interprocessIntermediateStorageManagers t |}.

Definition set_m_runningThreadCount (n : Z) (t : TaskBuildIndex) : TaskBuildIndex :=
  {| m_indexerCommandList := m_indexerCommandList t;
     m_appUUID := m_appUUID t;
     m_multiProcessIndexing := m_multiProcessIndexing t;
     m_processCount := m_processCount t;
     m_interrupted := m_interrupted t;
     m_lastCommandCount := m_lastCommandCount t;
     m_indexingFileCount := m_indexingFileCount t;
     m_runningThreadCount := n;
     m_processThreads := m_processThreads t;
     m_interprocessIntermediateStorageManagers := m_interprocessIntermediateStorageManagers t |}.

Definition set_m_processThreads (l : list Thread) (t : TaskBuildIndex) : TaskBuildIndex :=
  {| m_indexerCommandList := m_indexerCommandList t;
     m_appUUID := m_appUUID t;
     m_multiProcessIndexing := m_multiProcessIndexing t;
     m_processCount := m_processCount t;
     m_interrupted := m_interrupted t;
     m_lastCommandCount := m_lastCommandCount t;
     m_indexingFileCount := m_indexingFileCount t;
     m_runningThreadCount := m_runningThreadCount t;
     m_processThreads := l;
     m_interprocessIntermediateStorageManagers := m_interprocessIntermediateStorageManagers t |}.

Definition set_m_interprocessIntermediateStorageManagers (l : list Id) (t : TaskBuildIndex)
  : TaskBuildIndex :=
  {| m_indexerCommandList := m_indexerCommandList t;
     m_appUUID := m_appUUID t;
     m_multiProcessIndexing := m_multiProcessIndexing t;
     m_processCount := m_processCount t;
     m_interrupted := m_interrupted t;
     m_lastCommandCount := m_lastCommandCount t;
     m_indexingFileCount := m_indexingFileCount t;
     m_runningThreadCount := m_runningThreadCount t;
     m_processThreads := m_processThreads t;
     m_interprocessIntermediateStorageManagers := l |}.

Definition set_indexerCommands (l : list IndexerCommand) (s : SharedMemory) : SharedMemory :=
  {| indexerCommands := l;
     currentlyIndexedSourceFilePaths := currentlyIndexedSourceFilePaths s;
     finishedProcessIds := finishedProcessIds s;
     crashedSourceFilePaths := crashedSourceFilePaths s;
     intermediateStorages := intermediateStorages s |}.

Definition set_finishedProcessIds (l : list Id) (s : SharedMemory) : SharedMemory :=
  {| indexerCommands := indexerCommands s;
     currentlyIndexedSourceFilePaths := currentlyIndexedSourceFilePaths s;
     finishedProcessIds := l;
     crashedSourceFilePaths := crashedSourceFilePaths s;
     intermediateStorages := intermediateStorages s |}.

Definition set_intermediateStorages (m : gmap N (list IntermediateStorage)) (s : SharedMemory)
  : SharedMemory :=
  {| indexerCommands := indexerCommands s;
     currentlyIndexedSourceFilePaths := currentlyIndexedSourceFilePaths s;
     finishedProcessIds := finishedProcessIds s;
     crashedSourceFilePaths := crashedSourceFilePaths s;
     intermediateStorages := m |}.

Definition with_task (f : TaskBuildIndex -> TaskBuildIndex) (w : World) : World :=
  {| task := f (task w); shm := shm w; provider := provider w; blackboard := blackboard w;
     env := env w; clock := clock w; mergeProgress := mergeProgress w; trace := trace w |}.

Definition with_shm (f : SharedMemory -> SharedMemory) (w : World) : World :=
  {| task := task w; shm := f (shm w); provider := provider w; blackboard := blackboard w;
     env := env w; clock := clock w; mergeProgress := mergeProgress w; trace := trace w |}.

Definition with_provider (f : StorageProvider -> StorageProvider) (w : World) : World :=
  {| task := task w; shm := shm w; provider := f (provider w); blackboard := blackboard w;
     env := env w; clock := clock w; mergeProgress := mergeProgress w; trace := trace w |}.

Definition with_blackboard (f : gmap string BlackboardItem -> gmap string BlackboardItem)
    (w : World) : World :=
  {| task := task w; shm := shm w; provider := provider w; blackboard := f (blackboard w);
     env := env w; clock := clock w; mergeProgress := mergeProgress w; trace := trace w |}.

Definition with_clock (f : list Z -> list Z) (w : World) : World :=
  {| task := task w; shm := shm w; provider := provider w; blackboard := blackboard w;
     env := env w; clock := f (clock w); mergeProgress := mergeProgress w; trace := trace w |}.

Definition with_mergeProgress (f : list nat -> list nat) (w : World) : World :=
  {| task := task w; shm := shm w; provider := provider w; blackboard := blackboard w;
     env := env w; clock := clock w; mergeProgress := f (mergeProgress w); trace := trace w |}.

Definition with_trace (f : list Event -> list Event) (w : World) : World :=
  {| task := task w; shm := shm w; provider := provider w; blackboard := blackboard w;
     env := env w; clock := clock w; mergeProgress := mergeProgress w; trace := f (trace w) |}.

(** ** The monad of member functions *)

Inductive Fault : Type :=
| DivisionByZero
| DivisionOverflow
| VectorIndexOutOfRange
| PopFromEmptyQueue
| ProcessStillRunning
| OutOfFuel.

Inductive Result (A : Type) : Type :=
| Ok (a : A) (w : World)
| Err (f : Fault).

Arguments Ok {A} a w.
Arguments Err {A} f.

Definition M (A : Type) : Type := World -> Result A.

Definition ret {A} (a : A) : M A := fun w => Ok a w.

Definition bind {A B} (m : M A) (k : A -> M B) : M B :=
  fun w => match m w with
           | Ok a w' => k a w'
           | Err f => Err f
           end.

Definition fail {A} (f : Fault) : M A := fun _ => Err f.

Definition gets {A} (f : World -> A) : M A := fun w => Ok (f w) w.

Definition modify (f : World -> World) : M unit := fun w => Ok tt (f w).

Declare Scope task_scope.
Delimit Scope task_scope with task.
Bind Scope task_scope with M.

Notation "x <- c1 ;; c2" := (bind c1 (fun x => c2))
  (at level 100, c1 at next level, right associativity) : task_scope.
Notation "c1 ;; c2" := (bind c1 (fun _ => c2))
  (at level 100, right associativity) : task_scope.

Local Open Scope task_scope.

Definition emit (e : Event) : M unit := modify (with_trace (fun t => t ++ [e])).

Definition when (b : bool) (m : M unit) : M unit := if b then m else ret tt.

(** ** Collaborators *)

(** Modelled from the spec: [Blackboard] is a key/value store declared
    outside this file.  [get] writes its out-parameter only when the key
    holds an item of the requested type, so after [int v = d; get(k, v)]
    the variable holds [d] unless the key holds an integer. *)
Definition Blackboard_get_int (key : string) (d : Z) : M Z :=
  gets (fun w => match blackboard w !! key with
                 | Some (ItemInt z) => z
                 | _ => d
                 end).

Definition Blackboard_set (key : string) (item : BlackboardItem) : M unit :=
  modify (with_blackboard (fun b => <[key := item]> b)).

(** Modelled from the spec: [DialogView::dialogsHidden] reports whether
    the dialogs are hidden. *)
Definition DialogView_dialogsHidden : M bool :=
  gets (fun w => dialogsHiddenByUser (env w)).

Definition storageCount (p : StorageProvider) : nat :=
  (length (sp_storages p) - sp_merged p)%nat.

Definition StorageProvider_getStorageCount : M Z :=
  gets (fun w => Z.of_nat (storageCount (provider w))).

Definition StorageProvider_insert (s : IntermediateStorage) : M unit :=
  modify (with_provider (fun p =>
    {| sp_storages := sp_storages p ++ [s]; sp_merged := sp_merged p |})).

(** The downstream merge takes [n] more of the bundles still pending. *)
Definition mergeSome (n : nat) (p : StorageProvider) : StorageProvider :=
  {| sp_storages := sp_storages p;
     sp_merged := Nat.min (length (sp_storages p)) (sp_merged p + n) |}.

(** While this thread sleeps the downstream merge advances by the next
    amount of the [mergeProgress] oracle (by nothing once it is used up). *)
Definition sleep_for (ms : Z) : M unit :=
  emit (EvSleep ms) ;;
  n <- gets (fun w => hd 0%nat (mergeProgress w)) ;;
  modify (with_mergeProgress (@tl nat)) ;;
  modify (with_provider (mergeSome n)).

(** Modelled from the spec: [TimeStamp] is declared outside this file.
    [now] is the next reading of the wall clock in milliseconds and
    [deltaMS] the time elapsed since an earlier reading. *)
Definition TimeStamp_now : M Z :=
  t <- gets (fun w => hd 0 (clock w)) ;;
  modify (with_clock (@tl Z)) ;;
  ret t.

Definition deltaMS (now t : Z) : Z := now - t.

(** Modelled from the spec: the command manager is declared outside this
    file.  It holds the queue of pending commands. *)
Definition indexerCommandCount : M nat :=
  gets (fun w => length (indexerCommands (shm w))).

Definition clearIndexerCommands : M unit :=
  modify (with_shm (set_indexerCommands [])).

Definition setIndexerCommands (l : list IndexerCommand) : M unit :=
  modify (with_shm (set_indexerCommands l)).

(** Modelled from the spec: the status manager is declared outside this
    file.  [getNextFinishedProcessId] pops the next finished process id,
    and answers [0] when none is ready. *)
Definition getCurrentlyIndexedSourceFilePaths : M (list FilePath) :=
  gets (fun w => currentlyIndexedSourceFilePaths (shm w)).

Definition getCrashedSourceFilePaths : M (list FilePath) :=
  gets (fun w => crashedSourceFilePaths (shm w)).

Definition getNextFinishedProcessId : M Id :=
  q <- gets (fun w => finishedProcessIds (shm w)) ;;
  match q with
  | [] => ret 0%N
  | processId :: rest =>
      modify (with_shm (set_finishedProcessIds rest)) ;;
      ret processId
  end.

(** Modelled from the spec: the intermediate storage manager of process
    [p] is declared outside this file.  It reads the queue of storages
    of [p] in shared memory; popping takes exactly one storage from the
    front, and has no result on an empty queue. *)
Definition storagesOf (p : Id) (s : SharedMemory) : list IntermediateStorage :=
  default [] (intermediateStorages s !! p).

Definition getIntermediateStorageCount (p : Id) : M Z :=
  gets (fun w => Z.of_nat (length (storagesOf p (shm w)))).

Definition popIntermediateStorage (p : Id) : M IntermediateStorage :=
  q <- gets (fun w => storagesOf p (shm w)) ;;
  match q with
  | [] => fail PopFromEmptyQueue
  | s :: rest =>
      modify (with_shm (fun m =>
        set_intermediateStorages (<[p := rest]> (intermediateStorages m)) m)) ;;
      ret s
  end.

(** [v[i]] on a vector: no result outside its bounds. *)
Definition vector_at {A} (v : list A) (i : nat) : M A :=
  match v !! i with
  | Some x => ret x
  | None => fail VectorIndexOutOfRange
  end.

Definition int_div (a b : Z) : M Z :=
  match Int.div a b with
  | Int.Quotient q => ret q
  | Int.DivideByZero => fail DivisionByZero
  | Int.QuotientOverflow => fail DivisionOverflow
  end.

(** Modelled from the spec: paths, the file system and the process
    launcher are declared outside this file.  Paths are absolute strings,
    [concatenate] appends, and a path exists when the environment lists
    it.  A launch blocks until the process exits; its outcome is the next
    [ProcessRun] the caller observes. *)
Definition quote : string := String "034"%char EmptyString.

Definition quoted (s : string) : string := quote +:+ s +:+ quote.

Definition concatenate (p name : FilePath) : FilePath := p +:+ name.

Definition FilePath_exists (p : FilePath) : M bool :=
  gets (fun w => bool_decide (p ∈ existingFiles (env w))).

Definition executeProcessAndGetExitCode (r : ProcessRun) (commandPath : string)
    (commandArguments : list string) : M Z :=
  emit (EvExecuteProcess commandPath commandArguments) ;;
  when (interruptedMeanwhile r) (modify (with_task (set_m_interrupted true))) ;;
  ret (exitCode r).

Definition join (t : Thread) : M unit := emit (EvJoin t).

Fixpoint for_each {A} (l : list A) (body : A -> M unit) : M unit :=
  match l with
  | [] => ret tt
  | x :: rest => body x ;; for_each rest body
  end.

(** ** TaskBuildIndex *)

Definition s_processName (win32 : bool) : string :=
  if win32 then "sourcetrail_indexer.exe"%string else "sourcetrail_indexer"%string.

Definition updateIndexingDialog (sourcePaths : list FilePath) : M unit :=
  sourceFileCount <- Blackboard_get_int "source_file_count" 0 ;;
  indexedSourceFileCount <- Blackboard_get_int "indexed_source_file_count" 0 ;;
  modify (with_task (fun t =>
    set_m_indexingFileCount (m_indexingFileCount t + length sourcePaths)%nat t)) ;;
  indexingFileCount <- gets (fun w => m_indexingFileCount (task w)) ;;
  emit (EvUpdateIndexingDialog indexingFileCount indexedSourceFileCount sourceFileCount
          sourcePaths) ;;
  progress <- (if sourceFileCount =? 0 then ret 0
               else int_div (Int.mul indexedSourceFileCount 100) sourceFileCount) ;;
  emit (EvIndexingStatus true progress).

(** The body of the do-while loop of [fetchIntermediateStorages] and its
    loop test.  Every turn takes one id from the finished queue, so the
    fuel handed over by the caller, one more than the length of that
    queue, is never used up.  The count of popped storages is bounded by
    the number of turns and is kept exact. *)
Fixpoint fetchLoop (fuel : nat) (t : Z) (poppedStorageCount : Z) : M Z :=
  match fuel with
  | O => fail OutOfFuel
  | S fuel' =>
      finishedProcessId <- getNextFinishedProcessId ;;
      managers <- gets (fun w => m_interprocessIntermediateStorageManagers (task w)) ;;
      if (finishedProcessId =? 0)%N || (N.of_nat (length managers) <? finishedProcessId)%N
      then ret poppedStorageCount
      else
        storageManager <- vector_at managers (N.to_nat (finishedProcessId - 1)) ;;
        storageCount <- getIntermediateStorageCount storageManager ;;
        if storageCount =? 0 then ret poppedStorageCount
        else
          emit (EvLogInfo (pretty storageManager +:+ " - storage count: "
                           +:+ pretty storageCount)) ;;
          storage <- popIntermediateStorage storageManager ;;
          StorageProvider_insert storage ;;
          now <- TimeStamp_now ;;
          if deltaMS now t <? 500
          then fetchLoop fuel' t (poppedStorageCount + 1)
          else ret (poppedStorageCount + 1)
  end.

Definition fetchIntermediateStorages : M bool :=
  providerStorageCount <- StorageProvider_getStorageCount ;;
  if 10 <? providerStorageCount then
    emit (EvLogInfo ("waiting, too many storages queued: " +:+ pretty providerStorageCount)) ;;
    sleep_for 100 ;;
    ret true
  else
    t <- TimeStamp_now ;;
    fuel <- gets (fun w => S (length (finishedProcessIds (shm w)))) ;;
    poppedStorageCount <- fetchLoop fuel t 0 ;;
    if 0 <? poppedStorageCount then
      indexedSourceFileCount <- Blackboard_get_int "indexed_source_file_count" 0 ;;
      Blackboard_set "indexed_source_file_count"
        (ItemInt (Int.add indexedSourceFileCount poppedStorageCount)) ;;
      ret true
    else ret false.

Definition doUpdate : M TaskState :=
  runningThreadCount <- gets (fun w => m_runningThreadCount (task w)) ;;
  commandCount <- indexerCommandCount ;;
  lastCommandCount <- gets (fun w => m_lastCommandCount (task w)) ;;
  when (negb (commandCount =? lastCommandCount)%nat)
    (indexingFiles <- getCurrentlyIndexedSourceFilePaths ;;
     when (negb (length indexingFiles =? 0)%nat) (updateIndexingDialog indexingFiles) ;;
     modify (with_task (set_m_lastCommandCount commandCount))) ;;
  interrupted <- gets (fun w => m_interrupted (task w)) ;;
  if (commandCount =? 0)%nat && (runningThreadCount =? 0) then ret STATE_FAILURE
  else if interrupted then
    Blackboard_set "interrupted_indexing" (ItemBool true) ;;
    clearIndexerCommands ;;
    ret STATE_FAILURE
  else
    fetched <- fetchIntermediateStorages ;;
    when fetched (updateIndexingDialog []) ;;
    sleep_for 50 ;;
    ret STATE_RUNNING.

(** [while (fetchIntermediateStorages(blackboard));] *)
Fixpoint fetchUntilIdle (fuel : nat) : M unit :=
  match fuel with
  | O => fail OutOfFuel
  | S fuel' =>
      again <- fetchIntermediateStorages ;;
      if again then fetchUntilIdle fuel' else ret tt
  end.

Definition crashMessage : string :=
  "The translation unit threw an exception during indexing. Please check if the source file "
  +:+ "conforms to the specified language standard and all necessary options are defined within your project "
  +:+ "setup.".

Definition crashError (path : FilePath) : StorageErrorData :=
  {| message := crashMessage;
     filePath := path;
     lineNumber := 1;
     columnNumber := 1;
     translationUnit := path;
     fatal := true;
     indexed := true |}.

(** The loop over the crashed files, with the storage it fills. *)
Fixpoint addCrashErrors (crashedFiles : list FilePath) (storage : IntermediateStorage)
  : M IntermediateStorage :=
  match crashedFiles with
  | [] => ret storage
  | path :: rest =>
      emit (EvLogInfo ("crashed translation unit: " +:+ path)) ;;
      addCrashErrors rest (addError (crashError path) storage)
  end.

(** The crash report at the end of [doExit]. *)
Definition reportCrashedFiles : M unit :=
  crashedFiles <- getCrashedSourceFilePaths ;;
  when (negb (length crashedFiles =? 0)%nat)
    (storage <- addCrashErrors crashedFiles emptyStorage ;;
     StorageProvider_insert storage).

(** [fuel] bounds the number of turns of the final drain loop. *)
Definition doExit (fuel : nat) : M unit :=
  processThreads <- gets (fun w => m_processThreads (task w)) ;;
  for_each processThreads join ;;
  modify (with_task (set_m_processThreads [])) ;;
  fetchUntilIdle fuel ;;
  reportCrashedFiles ;;
  Blackboard_set "indexer_count" (ItemInt 0).

Definition doReset : M unit := ret tt.

Definition terminate : M unit :=
  modify (with_task (set_m_interrupted true)) ;;
  emit EvKillRunningProcesses.

Definition handleMessage : M unit :=
  hidden <- DialogView_dialogsHidden ;;
  when (negb hidden) (modify (with_task (set_m_interrupted true))).

(** The relaunch loop of [runIndexerProcess].  [runs] lists the outcomes
    of the launches this routine will observe; a launch beyond them has
    not returned. *)
Fixpoint relaunchLoop (runs : list ProcessRun) (processId : Id) (commandPath : string)
    (commandArguments : list string) (result : Z) : M Z :=
  interrupted <- gets (fun w => m_interrupted (task w)) ;;
  if negb (result =? 0) && negb interrupted then
    match runs with
    | [] => fail ProcessStillRunning
    | r :: runs' =>
        result' <- executeProcessAndGetExitCode r commandPath commandArguments ;;
        emit (EvLogInfo ("Indexer process " +:+ pretty processId +:+ " returned with "
                         +:+ pretty result')) ;;
        relaunchLoop runs' processId commandPath commandArguments result'
    end
  else ret result.

Definition incrementRunningThreadCount : M unit :=
  modify (with_task (fun t => set_m_runningThreadCount (m_runningThreadCount t + 1) t)).

Definition decrementRunningThreadCount : M unit :=
  modify (with_task (fun t => set_m_runningThreadCount (m_runningThreadCount t - 1) t)).

Definition runIndexerProcess (runs : list ProcessRun) (processId : Id) (logFilePath : string)
  : M unit :=
  incrementRunningThreadCount ;;
  indexerProcessPath <-
    gets (fun w => concatenate (appPath (env w)) (s_processName (windows (env w)))) ;;
  present <- FilePath_exists indexerProcessPath ;;
  if negb present then
    modify (with_task (set_m_interrupted true)) ;;
    emit (EvLogError ("Cannot start indexer process because executable is missing at "
                      +:+ quoted indexerProcessPath))
  else
    let commandPath := quoted indexerProcessPath in
    appUUID <- gets (fun w => m_appUUID (task w)) ;;
    appDir <- gets (fun w => appPath (env w)) ;;
    userDir <- gets (fun w => userDataPath (env w)) ;;
    let commandArguments :=
      [pretty processId; appUUID; quoted appDir; quoted userDir]
      ++ (if String.eqb logFilePath EmptyString then [] else [quoted logFilePath]) in
    relaunchLoop runs processId commandPath commandArguments 1 ;;
    decrementRunningThreadCount.

(** [work] is the indexer's own loop; it sees the shared memory only. *)
Definition runIndexerThread (work : string -> Id -> SharedMemory -> SharedMemory)
    (processId : Id) : M unit :=
  incrementRunningThreadCount ;;
  appUUID <- gets (fun w => m_appUUID (task w)) ;;
  modify (with_shm (work appUUID processId)) ;;
  decrementRunningThreadCount.

(** The body of the launch loop of [doEnter] for loop index [i]. *)
Definition startIndexer (logFilePath : string) (i : nat) : M unit :=
  let processId : Id := N.of_nat (i + 1) in
  modify (with_task (fun t =>
    set_m_interprocessIntermediateStorageManagers
      (m_interprocessIntermediateStorageManagers t ++ [processId]) t)) ;;
  multiProcess <- gets (fun w => m_multiProcessIndexing (task w)) ;;
  modify (with_task (fun t =>
    set_m_processThreads
      (m_processThreads t ++
         [if multiProcess then ProcessThread processId logFilePath
          else WorkerThread processId]) t)).

Definition doEnter : M unit :=
  modify (with_task (set_m_indexingFileCount 0)) ;;
  updateIndexingDialog [] ;;
  processCount <- gets (fun w => m_processCount (task w)) ;;
  Blackboard_set "indexer_count" (ItemInt (Int.wrap (Z.of_nat processCount))) ;;
  commands <- gets (fun w => m_indexerCommandList (task w)) ;;
  modify (with_task (set_m_lastCommandCount (length commands))) ;;
  setIndexerCommands commands ;;
  logFilePath <- gets (fun w => default EmptyString (fileLoggerPath (env w))) ;;
  for_each (seq 0 processCount) (startIndexer logFilePath).

(** The routine a thread handle stands for. *)
Definition runThread (work : string -> Id -> SharedMemory -> SharedMemory)
    (runs : list ProcessRun) (t : Thread) : M unit :=
  match t with
  | ProcessThread processId logFilePath => runIndexerProcess runs processId logFilePath
  | WorkerThread processId => runIndexerThread work processId
  end.

(** ** Notions used to state the properties *)

(** The integer a key holds on the blackboard, [0] when it holds none. *)
Definition blackboardInt (w : World) (key : string) : Z :=
  match blackboard w !! key with
  | Some (ItemInt z) => z
  | _ => 0
  end.

(** The quotient of the progress update fits an [int]: the blackboard
    does not hold the one pair of counts whose division has no result. *)
Definition progressRepresentable (w : World) : bool :=
  Int.representable (Int.mul (blackboardInt w "indexed_source_file_count") 100)
                    (blackboardInt w "source_file_count").

(** The percentage the progress update computes from the blackboard. *)
Definition progressOf (w : World) : Z :=
  if blackboardInt w "source_file_count" =? 0 then 0
  else Z.quot (Int.mul (blackboardInt w "indexed_source_file_count") 100)
              (blackboardInt w "source_file_count").

(** The world once the progress update has gone through. *)
Definition progressPublished (sourcePaths : list FilePath) (w : World) : World :=
  with_trace
    (fun t => t ++ [EvUpdateIndexingDialog
                      (m_indexingFileCount (task w) + length sourcePaths)
                      (blackboardInt w "indexed_source_file_count")
                      (blackboardInt w "source_file_count") sourcePaths;
                    EvIndexingStatus true (progressOf w)])
    (with_task (fun t =>
       set_m_indexingFileCount (m_indexingFileCount t + length sourcePaths)%nat t) w).

Definition managersOf (w : World) : list Id :=
  m_interprocessIntermediateStorageManagers (task w).

(** The process whose result queue a slot id refers to: the manager held
    at that slot, for ids from [1] to the number of slots. *)
Definition slotChannel (slots : list Id) (id : Id) : option Id :=
  if (id =? 0)%N then None else slots !! N.to_nat (id - 1).

(** The part of the world a drain works on. *)
Record DrainState : Type := {
  ds_finished : list Id;
  ds_channels : gmap N (list IntermediateStorage);
  ds_sink : list IntermediateStorage;
  ds_clock : list Z;
}.

Definition drainState (w : World) : DrainState :=
  {| ds_finished := finishedProcessIds (shm w);
     ds_channels := intermediateStorages (shm w);
     ds_sink := sp_storages (provider w);
     ds_clock := clock w |}.

Definition channelOf (d : DrainState) (p : Id) : list IntermediateStorage :=
  default [] (ds_channels d !! p).

(** One bundle moves from the front of the queue of process [p] to the
    sink; the finished id that announced it is gone and the clock has
    been read once. *)
Definition moved (rest : list Id) (p : Id) (remaining : list IntermediateStorage)
    (s : IntermediateStorage) (d : DrainState) : DrainState :=
  {| ds_finished := rest;
     ds_channels := <[p := remaining]> (ds_channels d);
     ds_sink := ds_sink d ++ [s];
     ds_clock := tl (ds_clock d) |}.

Definition consumed (rest : list Id) (d : DrainState) : DrainState :=
  {| ds_finished := rest;
     ds_channels := ds_channels d;
     ds_sink := ds_sink d;
     ds_clock := ds_clock d |}.

(** The drain as the specification words it: [drains slots t d k d']
    when a drain started at time [t] in state [d] pops [k] bundles and
    ends in [d']. *)
Inductive drains (slots : list Id) (t : Z) : DrainState -> nat -> DrainState -> Prop :=
| drains_none_ready d :
    ds_finished d = [] ->
    drains slots t d 0 d
| drains_unknown_slot d id rest :
    ds_finished d = id :: rest ->
    id = 0%N \/ (N.of_nat (length slots) < id)%N ->
    drains slots t d 0 (consumed rest d)
| drains_stale_signal d id rest p :
    ds_finished d = id :: rest ->
    slotChannel slots id = Some p ->
    channelOf d p = [] ->
    drains slots t d 0 (consumed rest d)
| drains_budget_spent d id rest p s remaining :
    ds_finished d = id :: rest ->
    slotChannel slots id = Some p ->
    channelOf d p = s :: remaining ->
    500 <= hd 0 (ds_clock d) - t ->
    drains slots t d 1 (moved rest p remaining s d)
| drains_again d id rest p s remaining k d' :
    ds_finished d = id :: rest ->
    slotChannel slots id = Some p ->
    channelOf d p = s :: remaining ->
    hd 0 (ds_clock d) - t < 500 ->
    drains slots t (moved rest p remaining s d) k d' ->
    drains slots t d (S k) d'.

(** The final loop of [doExit]: the drain is called again until it
    reports that nothing happened. *)
Inductive drainedUntilIdle : World -> World -> Prop :=
| idle_at_once w w' :
    fetchIntermediateStorages w = Ok false w' ->
    drainedUntilIdle w w'
| idle_later w w1 w' :
    fetchIntermediateStorages w = Ok true w1 ->
    drainedUntilIdle w1 w' ->
    drainedUntilIdle w w'.

(** Every bundle the sink gained between two worlds was waiting in a
    result queue of the first, and result queues only lost bundles from
    their front. *)
Definition sinkFedFromChannels (w w' : World) : Prop :=
  (exists gained,
      sp_storages (provider w') = sp_storages (provider w) ++ gained /\
      Forall (fun s => exists p, s ∈ storagesOf p (shm w)) gained) /\
  (forall p, storagesOf p (shm w') `suffix_of` storagesOf p (shm w)).

(** The launches recorded in a trace. *)
Definition launches (tr : list Event) : list (string * list string) :=
  omap (fun e => match e with
                 | EvExecuteProcess c a => Some (c, a)
                 | _ => None
                 end) tr.

(** A run after which the supervisor launches again: the process failed
    and nobody asked for an interrupt. *)
Definition failedUninterrupted (r : ProcessRun) : bool :=
  negb (exitCode r =? 0) && negb (interruptedMeanwhile r).

Definition indexerExecutable (w : World) : FilePath :=
  concatenate (appPath (env w)) (s_processName (windows (env w))).

(** The world once launch [r] has returned and been logged. *)
Definition afterRun (r : ProcessRun) (processId : Id) (commandPath : string)
    (commandArguments : list string) (w : World) : World :=
  with_trace
    (fun t => t ++ [EvLogInfo ("Indexer process " +:+ pretty processId
                               +:+ " returned with " +:+ pretty (exitCode r))])
    ((if interruptedMeanwhile r then with_task (set_m_interrupted true) else id)
       (with_trace (fun t => t ++ [EvExecuteProcess commandPath commandArguments]) w)).

(** The routines of all launched threads, run one after the other. *)
Definition runLaunchedRoutines (work : string -> Id -> SharedMemory -> SharedMemory)
    (runs : list ProcessRun) : M unit :=
  processThreads <- gets (fun w => m_processThreads (task w)) ;;
  for_each processThreads (runThread work runs).



(** The command line the supervisor of process [processId] launches. *)
Definition indexerCommandPath (w : World) : string := quoted (indexerExecutable w).

Definition indexerCommandArguments (w : World) (processId : Id) (logFilePath : string)
  : list string :=
  [pretty processId; m_appUUID (task w); quoted (appPath (env w));
   quoted (userDataPath (env w))]
  ++ (if String.eqb logFilePath EmptyString then [] else [quoted logFilePath]).

(** The world once a worker routine has counted itself in. *)
Definition countedIn (w : World) : World :=
  with_task (fun t => set_m_runningThreadCount (m_runningThreadCount t + 1) t) w.

(** The threads a trace shows as joined. *)
Definition joined (tr : list Event) : list Thread :=
  omap (fun e => match e with
                 | EvJoin t => Some t
                 | _ => None
                 end) tr.

(** The world once [doExit] has joined and dropped its threads. *)
Definition threadsJoined (w : World) : World :=
  with_task (set_m_processThreads [])
    (with_trace (fun t => t ++ map EvJoin (m_processThreads (task w))) w).

(** The world a computation ends in ([w] itself if it faults). *)
Definition worldAfter {A} (m : M A) (w : World) : World :=
  match m w with
  | Ok _ w' => w'
  | Err _ => w
  end.

(** The bundle [doExit] synthesizes for a list of crashed files. *)
Definition crashReport (crashedFiles : list FilePath) : IntermediateStorage :=
  {| storedFacts := []; storedErrors := map crashError crashedFiles |}.

(** What the progress refresh at the head of [doUpdate] leaves in place
    between the world [w] before it and the world [w1] after it. *)
Definition refreshed (w w1 : World) : Prop :=
  (shm w1 = shm w /\ provider w1 = provider w /\ blackboard w1 = blackboard w /\
   env w1 = env w /\ clock w1 = clock w /\ mergeProgress w1 = mergeProgress w) /\
  (m_interrupted (task w1) = m_interrupted (task w) /\
   m_runningThreadCount (task w1) = m_runningThreadCount (task w) /\
   m_processThreads (task w1) = m_processThreads (task w) /\
   managersOf w1 = managersOf w /\
   m_lastCommandCount (task w1) = length (indexerCommands (shm w))).

(** The three ways [doUpdate] takes after the refresh. *)
Definition updateTail (w w1 : World) : Result TaskState :=
  if (length (indexerCommands (shm w)) =? 0)%nat && (m_runningThreadCount (task w) =? 0)
  then Ok STATE_FAILURE w1
  else if m_interrupted (task w)
       then Ok STATE_FAILURE
              (with_shm (set_indexerCommands [])
                 (with_blackboard
                    (fun b => <["interrupted_indexing"%string := ItemBool true]> b) w1))
       else bind fetchIntermediateStorages
              (fun fetched =>
                 bind (when fetched (updateIndexingDialog []))
                   (fun _ => bind (sleep_for 50) (fun _ => ret STATE_RUNNING))) w1.

(** *** The claims the code departs from, as they are worded *)

(** An interrupt request sets the flag when the dialogs are hidden and
    leaves it alone otherwise. *)
Definition interrupt_honoured_when_dialogs_hidden (w : World) : Prop :=
  exists w', handleMessage w = Ok tt w' /\
    (dialogsHiddenByUser (env w) = true -> m_interrupted (task w') = true) /\
    (dialogsHiddenByUser (env w) = false ->
       m_interrupted (task w') = m_interrupted (task w)).

(** With the flag set, the next update flags the interruption on the
    blackboard, empties the command queue and fails. *)
Definition update_flags_interruption (w : World) : Prop :=
  m_interrupted (task w) = true ->
  exists w', doUpdate w = Ok STATE_FAILURE w' /\
    blackboard w' !! "interrupted_indexing"%string = Some (ItemBool true) /\
    length (indexerCommands (shm w')) = 0%nat.

(** Nothing is ready to drain: no finished id, or only ids whose result
    queues are empty. *)
Definition nothingToDrain (w : World) : Prop :=
  finishedProcessIds (shm w) = [] \/
  forall id p, id ∈ finishedProcessIds (shm w) ->
               slotChannel (managersOf w) id = Some p ->
               storagesOf p (shm w) = [].

(** A drain with nothing to drain changes no queue, no sink, no count,
    and reports that nothing happened. *)
Definition idle_drain_reports_nothing (w : World) : Prop :=
  nothingToDrain w ->
  exists w', fetchIntermediateStorages w = Ok false w' /\
    intermediateStorages (shm w') = intermediateStorages (shm w) /\
    sp_storages (provider w') = sp_storages (provider w) /\
    blackboard w' !! "indexed_source_file_count"%string
      = blackboard w !! "indexed_source_file_count"%string.

(** Every worker routine leaves the count of running threads as it
    found it. *)
Definition routine_balances_count (work : string -> Id -> SharedMemory -> SharedMemory)
    (runs : list ProcessRun) (t : Thread) (w : World) : Prop :=
  forall w', runThread work runs t w = Ok tt w' ->
             m_runningThreadCount (task w') = m_runningThreadCount (task w).

(** ** Sample worlds *)

(** The constructor of the task. *)
Definition newTaskBuildIndex (processCount : nat) (commands : list IndexerCommand)
    (appUUID : string) (multiProcessIndexing : bool) : TaskBuildIndex :=
  {| m_indexerCommandList := commands;
     m_appUUID := appUUID;
     m_multiProcessIndexing := multiProcessIndexing;
     m_processCount := processCount;
     m_interrupted := false;
     m_lastCommandCount := 0;
     m_indexingFileCount := 0;
     m_runningThreadCount := 0;
     m_processThreads := [];
     m_interprocessIntermediateStorageManagers := [] |}.

Definition emptySharedMemory : SharedMemory :=
  {| indexerCommands := [];
     currentlyIndexedSourceFilePaths := [];
     finishedProcessIds := [];
     crashedSourceFilePaths := [];
     intermediateStorages := ∅ |}.

Definition installedEnvironment : Environment :=
  {| windows := false;
     appPath := "/opt/sourcetrail/";
     userDataPath := "/home/dev/.config/sourcetrail/";
     existingFiles := ["/opt/sourcetrail/sourcetrail_indexer"%string];
     fileLoggerPath := Some "/tmp/sourcetrail.log"%string;
     dialogsHiddenByUser := false |}.

(** The same installation with the indexer executable gone. *)
Definition brokenEnvironment : Environment :=
  {| windows := false;
     appPath := "/opt/sourcetrail/";
     userDataPath := "/home/dev/.config/sourcetrail/";
     existingFiles := [];
     fileLoggerPath := Some "/tmp/sourcetrail.log"%string;
     dialogsHiddenByUser := false |}.

(** The installation while the user keeps the dialogs hidden. *)
Definition hiddenEnvironment : Environment :=
  {| windows := false;
     appPath := "/opt/sourcetrail/";
     userDataPath := "/home/dev/.config/sourcetrail/";
     existingFiles := ["/opt/sourcetrail/sourcetrail_indexer"%string];
     fileLoggerPath := Some "/tmp/sourcetrail.log"%string;
     dialogsHiddenByUser := true |}.

Definition worldOf (t : TaskBuildIndex) (s : SharedMemory) (e : Environment) : World :=
  {| task := t;
     shm := s;
     provider := {| sp_storages := []; sp_merged := 0 |};
     blackboard := ∅;
     env := e;
     clock := [];
     mergeProgress := [];
     trace := [] |}.

Definition command (path : FilePath) : IndexerCommand := {| sourceFilePath := path |}.

Definition bundle (name : string) : IntermediateStorage :=
  {| storedFacts := [name]; storedErrors := [] |}.

(** A task that has just been constructed for two workers and three files. *)
Definition constructedWorld (multiProcess : bool) (e : Environment) : World :=
  worldOf (newTaskBuildIndex 2 [command "a.cpp"; command "b.cpp"; command "c.cpp"]
             "uuid" multiProcess)
          emptySharedMemory e.

(** Two thread workers are done: three bundles wait in their queues,
    three finished ids announce them, and one file crashed its worker. *)
Definition workersDone : World :=
  {| task :=
       {| m_indexerCommandList := [command "a.cpp"; command "b.cpp"; command "c.cpp";
                                   command "d.cpp"];
          m_appUUID := "uuid";
          m_multiProcessIndexing := false;
          m_processCount := 2;
          m_interrupted := false;
          m_lastCommandCount := 0;
          m_indexingFileCount := 4;
          m_runningThreadCount := 0;
          m_processThreads := [WorkerThread 1%N; WorkerThread 2%N];
          m_interprocessIntermediateStorageManagers := [1%N; 2%N] |};
     shm :=
       {| indexerCommands := [];
          currentlyIndexedSourceFilePaths := [];
          finishedProcessIds := [1%N; 2%N; 1%N];
          crashedSourceFilePaths := ["d.cpp"%string];
          intermediateStorages :=
            {[ 1%N := [bundle "a.cpp"; bundle "c.cpp"]; 2%N := [bundle "b.cpp"] ]} |};
     provider := {| sp_storages := []; sp_merged := 0 |};
     blackboard := {[ "source_file_count"%string := ItemInt 4;
                      "indexed_source_file_count"%string := ItemInt 0;
                      "indexer_count"%string := ItemInt 2 ]};
     env := installedEnvironment;
     clock := [0; 10; 20; 30; 40; 50; 60; 70];
     mergeProgress := [];
     trace := [] |}.

(** The storage provider is eleven bundles behind. *)
Definition backlog : StorageProvider :=
  {| sp_storages := map bundle ["1"; "2"; "3"; "4"; "5"; "6"; "7"; "8"; "9"; "10"; "11"]%string;
     sp_merged := 0 |}.

Definition congested (w : World) : World := with_provider (fun _ => backlog) w.

(** An interrupt is pending while a command is still queued and both
    workers run. *)
Definition interruptedWhileBusy : World :=
  with_task (fun t => set_m_interrupted true (set_m_runningThreadCount 2 t))
    (with_shm (set_indexerCommands [command "d.cpp"]) workersDone).

(** An interrupt arrives when the queue is empty and no worker runs. *)
Definition interruptedWhenDone : World :=
  with_task (set_m_interrupted true) workersDone.

(** A worker process that crashes twice before it completes. *)
Definition crashesTwice : list ProcessRun :=
  [ {| exitCode := 139; interruptedMeanwhile := false |};
    {| exitCode := 1; interruptedMeanwhile := false |};
    {| exitCode := 0; interruptedMeanwhile := false |} ].

(** The same workers as in [workersDone], with no crashed file. *)
Definition workersDoneCleanly : World :=
  with_shm (fun s =>
    {| indexerCommands := indexerCommands s;
       currentlyIndexedSourceFilePaths := currentlyIndexedSourceFilePaths s;
       finishedProcessIds := finishedProcessIds s;
       crashedSourceFilePaths := [];
       intermediateStorages := intermediateStorages s |}) workersDone.

(** ** Notions for the life cycle as a whole *)

(** The slot id [doEnter] gives to loop index [i]. *)
Definition slotOf (i : nat) : Id := N.of_nat (i + 1).

(** The thread [doEnter] starts for loop index [i]. *)
Definition threadFor (multiProcess : bool) (logFilePath : string) (i : nat) : Thread :=
  if multiProcess then ProcessThread (slotOf i) logFilePath else WorkerThread (slotOf i).

(** The log file path [doEnter] hands to its workers. *)
Definition logFilePathOf (w : World) : string :=
  default EmptyString (fileLoggerPath (env w)).

(** The world once the launch loop has run over the indices [l]. *)
Definition launched (logFilePath : string) (l : list nat) (w : World) : World :=
  with_task (fun t =>
    set_m_processThreads
      (m_processThreads t ++ map (threadFor (m_multiProcessIndexing t) logFilePath) l)
      (set_m_interprocessIntermediateStorageManagers
         (m_interprocessIntermediateStorageManagers t ++ map slotOf l) t)) w.

(** Finished ids that can be trusted: every id in the finished queue is
    the slot of the process of the same id, and no process is announced
    more often than it has bundles waiting. *)
Definition announced (slots : list Id) (d : DrainState) : bool :=
  forallb (fun id =>
             match slotChannel slots id with
             | Some p => (p =? id)%N
                         && (count_occ N.eq_dec (ds_finished d) id
                             <=? length (channelOf d id))%nat
             | None => false
             end)
          (ds_finished d).

Definition signalsConsistent (w : World) : bool :=
  announced (managersOf w) (drainState w).

(** The calls a scheduler, a message bus or a thread can make on the
    task, and a run of such calls one after the other. *)
Inductive MemberCall : Type :=
| CallEnter
| CallUpdate
| CallExit (fuel : nat)
| CallReset
| CallTerminate
| CallHandleMessage
| CallRunThread (work : string -> Id -> SharedMemory -> SharedMemory)
                (runs : list ProcessRun) (t : Thread).

Definition discard {A} (m : M A) : M unit := bind m (fun _ => ret tt).

Definition perform (c : MemberCall) : M unit :=
  match c with
  | CallEnter => doEnter
  | CallUpdate => discard doUpdate
  | CallExit fuel => doExit fuel
  | CallReset => doReset
  | CallTerminate => terminate
  | CallHandleMessage => handleMessage
  | CallRunThread work runs t => runThread work runs t
  end.

Definition performAll (calls : list MemberCall) : M unit := for_each calls perform.

(** A stale finished id heads the queue of [workersDone]. *)
Definition staleSignalFirst : World :=
  with_shm (set_finishedProcessIds [7%N; 1%N; 2%N; 1%N]) workersDone.

(** The task of [workersDone] while a dialog is up and work remains. *)
Definition busyWorld : World :=
  with_task (set_m_runningThreadCount 2)
    (with_shm (set_indexerCommands [command "d.cpp"]) workersDone).

(** The number of bundles waiting in all result queues. *)
Definition queuedBundles (s : SharedMemory) : nat :=
  map_fold (fun _ (q : list IntermediateStorage) n => (length q + n)%nat) 0%nat
           (intermediateStorages s).

(** A finished id the drain can serve: it names a slot whose process has
    a bundle waiting. *)
Definition servable (w : World) (id : Id) : bool :=
  match slotChannel (managersOf w) id with
  | Some p => negb (length (storagesOf p (shm w)) =? 0)%nat
  | None => false
  end.

(** The workers of [workersDone] seen through a clock that shows [600]
    elapsed at its first reading after the start. *)
Definition slowDrain : World := with_clock (fun _ => [0; 600; 610; 620]) workersDone.

(** The world of [workersDone] once its three bundles are drained. *)
Definition threeOfFourIndexed : World := worldAfter fetchIntermediateStorages workersDone.

(** Eleven bundles are pending, and the merge takes five of them during
    the first sleep. *)
Definition congestedButMerging : World :=
  with_mergeProgress (fun _ => [5%nat]) (congested workersDone).


(** A blackboard whose counts have no quotient: the product of the
    indexed count by [100] wraps to the least [int], and the total is
    [-1]. *)
Definition unrepresentableProgress : World :=
  with_blackboard
    (fun _ => {[ "source_file_count"%string := ItemInt (-1);
                 "indexed_source_file_count"%string := ItemInt 536870912 ]})
    workersDone.

(** * Properties *)

(** ** Machine integers *)

Lemma Int_wrap_in_range z : Int.in_range (Int.wrap z).
Proof.
  unfold Int.wrap, Int.in_range, Int.min_signed, Int.max_signed, Int.modulus.
  pose proof (Z.mod_pos_bound (z - - 2 ^ 31) (2 ^ 32)). lia.
Qed.

Lemma Int_wrap_id z : Int.in_range z -> Int.wrap z = z.
Proof.
  unfold Int.wrap, Int.in_range, Int.min_signed, Int.max_signed, Int.modulus.
  intros H. rewrite Z.mod_small; lia.
Qed.

Lemma Int_add_exact a b : Int.in_range (a + b) -> Int.add a b = a + b.
Proof. apply Int_wrap_id. Qed.

Lemma Int_div_nonzero a b :
  b <> 0 -> Int.representable a b = true -> Int.div a b = Int.Quotient (Z.quot a b).
Proof.
  intros H Hrep. unfold Int.div. rewrite Hrep.
  destruct (Z.eqb_spec b 0); [lia | reflexivity].
Qed.

Lemma Int_div_overflow a b :
  Int.representable a b = false -> Int.div a b = Int.QuotientOverflow.
Proof.
  intros Hrep. unfold Int.div. rewrite Hrep. unfold Int.representable in Hrep.
  apply negb_false_iff, andb_true_iff in Hrep as (_ & Hb). apply Z.eqb_eq in Hb.
  subst b. reflexivity.
Qed.

Lemma Int_representable_divisor a b : b <> -1 -> Int.representable a b = true.
Proof.
  intros Hb. unfold Int.representable.
  destruct (Z.eqb_spec b (-1)); [contradiction |]. now rewrite andb_false_r.
Qed.

(** ** Running a computation *)

Lemma bind_Ok {A B} (m : M A) (k : A -> M B) w a w1 :
  m w = Ok a w1 -> bind m k w = k a w1.
Proof. intros H. unfold bind. now rewrite H. Qed.

Lemma bind_Ok_inv {A B} (m : M A) (k : A -> M B) w b w' :
  bind m k w = Ok b w' -> exists a w1, m w = Ok a w1 /\ k a w1 = Ok b w'.
Proof.
  unfold bind. destruct (m w) as [a w1 | f]; [eauto | discriminate].
Qed.

(** Unfolds the primitives that neither loop nor fail. *)
Ltac run :=
  cbv [bind ret gets modify emit when
       Blackboard_get_int Blackboard_set DialogView_dialogsHidden
       StorageProvider_getStorageCount StorageProvider_insert sleep_for
       TimeStamp_now indexerCommandCount clearIndexerCommands setIndexerCommands
       getCurrentlyIndexedSourceFilePaths getCrashedSourceFilePaths
       getIntermediateStorageCount FilePath_exists executeProcessAndGetExitCode join
       incrementRunningThreadCount decrementRunningThreadCount];
  cbn [task shm provider blackboard env clock mergeProgress trace
       with_task with_shm with_provider with_blackboard with_clock with_mergeProgress
       with_trace].

(** ** The progress update *)

(** The progress update goes through exactly when its quotient fits. *)
Lemma updateIndexingDialog_run sourcePaths w :
  updateIndexingDialog sourcePaths w
  = (if progressRepresentable w then Ok tt (progressPublished sourcePaths w)
     else Err DivisionOverflow).
Proof.
  unfold updateIndexingDialog, progressRepresentable, progressPublished, progressOf,
    blackboardInt. run.
  set (total := match blackboard w !! "source_file_count"%string with
                | Some (ItemInt z) => z | _ => 0 end).
  set (done := match blackboard w !! "indexed_source_file_count"%string with
               | Some (ItemInt z) => z | _ => 0 end).
  destruct (Z.eqb_spec total 0) as [E | E].
  - rewrite Int_representable_divisor by lia. run.
    unfold with_trace. cbn. now rewrite <- app_assoc.
  - unfold int_div. destruct (Int.representable (Int.mul done 100) total) eqn:Hrep.
    + rewrite (Int_div_nonzero _ _ E Hrep). run.
      unfold with_trace. cbn. now rewrite <- app_assoc.
    + rewrite (Int_div_overflow _ _ Hrep). reflexivity.
Qed.

Lemma progressPublished_frame sourcePaths w :
  shm (progressPublished sourcePaths w) = shm w /\
  provider (progressPublished sourcePaths w) = provider w /\
  blackboard (progressPublished sourcePaths w) = blackboard w /\
  env (progressPublished sourcePaths w) = env w /\
  clock (progressPublished sourcePaths w) = clock w /\
  mergeProgress (progressPublished sourcePaths w) = mergeProgress w /\
  task (progressPublished sourcePaths w)
  = set_m_indexingFileCount (m_indexingFileCount (task w) + length sourcePaths)%nat (task w).
Proof. repeat split. Qed.

Lemma updateIndexingDialog_total sourcePaths w :
  progressRepresentable w = true ->
  exists w', updateIndexingDialog sourcePaths w = Ok tt w' /\
    shm w' = shm w /\ provider w' = provider w /\ blackboard w' = blackboard w /\
    env w' = env w /\ clock w' = clock w /\ mergeProgress w' = mergeProgress w /\
    task w' = set_m_indexingFileCount
                (m_indexingFileCount (task w) + length sourcePaths)%nat (task w).
Proof.
  intros Hrep. rewrite updateIndexingDialog_run, Hrep.
  eexists. split; [reflexivity | apply progressPublished_frame].
Qed.

Lemma updateIndexingDialog_inv sourcePaths w w' :
  updateIndexingDialog sourcePaths w = Ok tt w' ->
  progressRepresentable w = true /\
  shm w' = shm w /\ provider w' = provider w /\ blackboard w' = blackboard w /\
  env w' = env w /\ clock w' = clock w /\ mergeProgress w' = mergeProgress w /\
  task w' = set_m_indexingFileCount
              (m_indexingFileCount (task w) + length sourcePaths)%nat (task w).
Proof.
  rewrite updateIndexingDialog_run. destruct (progressRepresentable w); [| discriminate].
  intros [= <-]. split; [reflexivity | apply progressPublished_frame].
Qed.

(** C9: whatever the blackboard holds, the progress update never
    divides by zero.  When the source file count read is zero it
    dispatches [0] without dividing; otherwise it divides the indexed
    count times [100] by the source file count, and dispatches the
    integer quotient whenever that quotient fits an [int]; for the one
    pair of operands whose quotient does not fit, the division has no
    result and the update does not complete. *)
Theorem updateIndexingDialog_division_guarded (sourcePaths : list FilePath) (w : World) :
  let sourceFileCount := blackboardInt w "source_file_count" in
  let indexedSourceFileCount := blackboardInt w "indexed_source_file_count" in
  updateIndexingDialog sourcePaths w <> Err DivisionByZero /\
  if progressRepresentable w
  then exists w' progress,
         updateIndexingDialog sourcePaths w = Ok tt w' /\
         Int.Quotient progress
         = (if sourceFileCount =? 0 then Int.Quotient 0
            else Int.div (Int.mul indexedSourceFileCount 100) sourceFileCount) /\
         progress = (if sourceFileCount =? 0 then 0
                     else Z.quot (Int.mul indexedSourceFileCount 100) sourceFileCount) /\
         trace w' = trace w ++
           [EvUpdateIndexingDialog (m_indexingFileCount (task w) + length sourcePaths)
              indexedSourceFileCount sourceFileCount sourcePaths;
            EvIndexingStatus true progress]
  else sourceFileCount <> 0 /\
       Int.div (Int.mul indexedSourceFileCount 100) sourceFileCount = Int.QuotientOverflow /\
       updateIndexingDialog sourcePaths w = Err DivisionOverflow.
Proof.
  cbv zeta. rewrite updateIndexingDialog_run.
  destruct (progressRepresentable w) eqn:Hrep; (split; [discriminate |]).
  - exists (progressPublished sourcePaths w), (progressOf w).
    split; [reflexivity |]. unfold progressPublished, progressOf.
    cbn [trace with_trace with_task].
    destruct (Z.eqb_spec (blackboardInt w "source_file_count") 0) as [E | E].
    + repeat split.
    + split; [symmetry; now apply Int_div_nonzero |]. repeat split.
  - unfold progressRepresentable in Hrep. pose proof (Int_div_overflow _ _ Hrep) as Hdiv.
    repeat split; [| exact Hdiv].
    intros E. rewrite Int_representable_divisor in Hrep by lia. discriminate Hrep.
Qed.

(** ** Interrupt requests *)

(** C1 (as amended): an interrupt request sets the flag exactly when
    [dialogsHidden] answers no; while the dialogs are hidden the flag,
    like all the rest, is left as it was. *)
Theorem handleMessage_interrupts_unless_hidden (w : World) :
  exists w',
    handleMessage w = Ok tt w' /\
    m_interrupted (task w')
      = (if dialogsHiddenByUser (env w) then m_interrupted (task w) else true) /\
    w' = (if dialogsHiddenByUser (env w) then w
          else with_task (set_m_interrupted true) w).
Proof.
  unfold handleMessage. run. destruct (dialogsHiddenByUser (env w)); run; eauto.
Qed.

(** C1 (as worded) fails where the dialogs are hidden and no interrupt is
    pending: the request is dropped and the flag stays clear. *)
Lemma handleMessage_drops_request_when_hidden :
  ~ interrupt_honoured_when_dialogs_hidden (constructedWorld false hiddenEnvironment).
Proof.
  intros (w' & Hrun & Hhidden & _).
  vm_compute in Hrun. injection Hrun as <-.
  specialize (Hhidden eq_refl). discriminate Hhidden.
Qed.

(** ** Supervising a worker process *)

Lemma launches_app t1 t2 : launches (t1 ++ t2) = launches t1 ++ launches t2.
Proof. apply omap_app. Qed.

Lemma relaunchLoop_stop runs processId commandPath commandArguments result w :
  result = 0 \/ m_interrupted (task w) = true ->
  relaunchLoop runs processId commandPath commandArguments result w = Ok result w.
Proof.
  intros H. destruct runs; cbn [relaunchLoop]; run;
    (destruct H as [-> | ->]; [reflexivity | now rewrite andb_false_r]).
Qed.

Lemma relaunchLoop_step r runs processId commandPath commandArguments result w :
  result <> 0 -> m_interrupted (task w) = false ->
  relaunchLoop (r :: runs) processId commandPath commandArguments result w
  = relaunchLoop runs processId commandPath commandArguments (exitCode r)
      (afterRun r processId commandPath commandArguments w).
Proof.
  intros Hres Hint. cbn [relaunchLoop]. run. rewrite Hint.
  destruct (Z.eqb_spec result 0) as [? | _]; [contradiction |]. cbn [negb andb].
  unfold afterRun. destruct (interruptedMeanwhile r); reflexivity.
Qed.

Lemma relaunchLoop_blocked processId commandPath commandArguments result w :
  result <> 0 -> m_interrupted (task w) = false ->
  relaunchLoop [] processId commandPath commandArguments result w = Err ProcessStillRunning.
Proof.
  intros Hres Hint. cbn [relaunchLoop]. run. rewrite Hint.
  destruct (Z.eqb_spec result 0) as [? | _]; [contradiction | reflexivity].
Qed.

Lemma afterRun_interrupted r processId commandPath commandArguments w :
  m_interrupted (task w) = false ->
  m_interrupted (task (afterRun r processId commandPath commandArguments w))
  = interruptedMeanwhile r.
Proof. intros H. unfold afterRun. destruct (interruptedMeanwhile r); cbn; auto. Qed.

Lemma afterRun_count r processId commandPath commandArguments w :
  m_runningThreadCount (task (afterRun r processId commandPath commandArguments w))
  = m_runningThreadCount (task w).
Proof. unfold afterRun. destruct (interruptedMeanwhile r); reflexivity. Qed.

Lemma afterRun_launches r processId commandPath commandArguments w :
  launches (trace (afterRun r processId commandPath commandArguments w))
  = launches (trace w) ++ [(commandPath, commandArguments)].
Proof.
  unfold afterRun. destruct (interruptedMeanwhile r); cbn;
    rewrite !launches_app; cbn; now rewrite app_nil_r.
Qed.

Lemma failedUninterrupted_true r :
  failedUninterrupted r = true <-> exitCode r <> 0 /\ interruptedMeanwhile r = false.
Proof.
  unfold failedUninterrupted. destruct (Z.eqb_spec (exitCode r) 0), (interruptedMeanwhile r);
    cbn; intuition congruence.
Qed.

(** What a returning relaunch loop has done: [n] launches, all alike;
    each but the last saw a failure with no interrupt; the last did not. *)
Lemma relaunchLoop_returns runs processId commandPath commandArguments :
  forall result w res w',
    relaunchLoop runs processId commandPath commandArguments result w = Ok res w' ->
    exists n : nat,
      (n <= length runs)%nat /\
      launches (trace w') = launches (trace w) ++ repeat (commandPath, commandArguments) n /\
      (forall i r, runs !! i = Some r -> (i < n)%nat ->
                   (failedUninterrupted r = true <-> (S i < n)%nat)) /\
      ((0 < n)%nat <-> result <> 0 /\ m_interrupted (task w) = false) /\
      (res = 0 \/ m_interrupted (task w') = true) /\
      (n = 0%nat -> res = result) /\
      ((0 < n)%nat -> exists r, last (take n runs) = Some r /\ res = exitCode r) /\
      m_runningThreadCount (task w') = m_runningThreadCount (task w).
Proof.
  induction runs as [| r runs IH]; intros result w res w' Hrun.
  - destruct (Z.eq_dec result 0) as [E | E];
      [| destruct (m_interrupted (task w)) eqn:Hint].
    3: { rewrite relaunchLoop_blocked in Hrun by assumption. discriminate. }
    all: rewrite relaunchLoop_stop in Hrun by auto; injection Hrun as <- <-;
      exists 0%nat; cbn; rewrite app_nil_r;
      repeat split; auto; try lia; try (intros; lia); try (intros [? ?]; congruence).
  - destruct (Z.eq_dec result 0) as [E | E];
      [| destruct (m_interrupted (task w)) eqn:Hint].
    3: { rewrite relaunchLoop_step in Hrun by assumption.
         apply IH in Hrun as (n & Hle & Hl & Hiff & Hpos & Hend & Hzero & Hlast & Hcount).
         rewrite afterRun_launches in Hl. rewrite afterRun_interrupted in Hpos by assumption.
         rewrite afterRun_count in Hcount.
         assert (Hnext : (0 < n)%nat <-> failedUninterrupted r = true)
           by (rewrite Hpos; symmetry; apply failedUninterrupted_true).
         exists (S n). cbn [length repeat].
         split; [lia |]. split; [now rewrite Hl, <- app_assoc |].
         split; [| split; [| split; [| split; [| split]]]]; auto; try lia.
         - intros i r0 Hi Hlt. destruct i as [| i]; cbn in Hi.
           + injection Hi as <-. rewrite <- Hnext. lia.
           + rewrite (Hiff i r0 Hi) by lia. lia.
         - intros _. destruct n as [| n].
           + exists r. split; [reflexivity | auto].
           + destruct Hlast as (r' & Hr' & Hres); [lia |]. exists r'. split; [| assumption].
             cbn [take]. cbn [take] in Hr'. rewrite last_cons, Hr'. reflexivity. }
    all: rewrite relaunchLoop_stop in Hrun by auto; injection Hrun as <- <-;
      exists 0%nat; cbn; rewrite app_nil_r;
      repeat split; auto; try lia; try (intros; lia); try (intros [? ?]; congruence).
Qed.

Lemma runIndexerProcess_missing runs processId logFilePath w :
  indexerExecutable w ∉ existingFiles (env w) ->
  runIndexerProcess runs processId logFilePath w
  = Ok tt (with_trace
             (fun t => t ++ [EvLogError
                ("Cannot start indexer process because executable is missing at "
                 +:+ quoted (indexerExecutable w))])
             (with_task (set_m_interrupted true) (countedIn w))).
Proof.
  intros Hmiss. unfold runIndexerProcess. run.
  fold (indexerExecutable w). rewrite bool_decide_eq_false_2 by assumption.
  reflexivity.
Qed.

Lemma runIndexerProcess_present runs processId logFilePath w :
  indexerExecutable w ∈ existingFiles (env w) ->
  runIndexerProcess runs processId logFilePath w
  = bind (relaunchLoop runs processId (indexerCommandPath w)
            (indexerCommandArguments w processId logFilePath) 1)
         (fun _ => decrementRunningThreadCount) (countedIn w).
Proof.
  intros Hpres. unfold runIndexerProcess. run.
  fold (indexerExecutable w). rewrite bool_decide_eq_true_2 by assumption.
  reflexivity.
Qed.

(** C8: when the routine supervising a worker process returns, it has
    launched the executable [n] times, every time with the same command
    path and arguments; each observed exit with a non-zero code and no
    interrupt is followed by another launch, and no other exit is; and
    at the end the interrupt flag is set or the last exit code observed
    is [0]. *)
Theorem runIndexerProcess_relaunches_until_success_or_interrupt
    (runs : list ProcessRun) (processId : Id) (logFilePath : string) (w w' : World) :
  runIndexerProcess runs processId logFilePath w = Ok tt w' ->
  exists n : nat,
    (n <= length runs)%nat /\
    launches (trace w')
    = launches (trace w)
      ++ repeat (indexerCommandPath w, indexerCommandArguments w processId logFilePath) n /\
    (forall i r, runs !! i = Some r -> (i < n)%nat ->
                 (failedUninterrupted r = true <-> (S i < n)%nat)) /\
    (m_interrupted (task w') = true \/
     exists r, last (take n runs) = Some r /\ exitCode r = 0).
Proof.
  intros Hrun.
  destruct (decide (indexerExecutable w ∈ existingFiles (env w))) as [Hpres | Hmiss].
  - rewrite runIndexerProcess_present in Hrun by assumption.
    apply bind_Ok_inv in Hrun as (res & w1 & Hloop & Hdec).
    apply relaunchLoop_returns in Hloop
      as (n & Hle & Hl & Hiff & Hpos & Hend & Hzero & Hlast & _).
    revert Hdec. run. intros [= <-]. cbn.
    exists n. split; [assumption |]. split; [exact Hl |]. split; [exact Hiff |].
    destruct Hend as [-> | Hint]; [| now left].
    right. destruct n as [| n]; [specialize (Hzero eq_refl); discriminate |].
    destruct Hlast as (r & Hr & Hres); [lia |]. eauto.
  - rewrite runIndexerProcess_missing in Hrun by assumption. injection Hrun as <-.
    exists 0%nat. cbn. rewrite launches_app, !app_nil_r.
    repeat split; try lia; try (intros; lia); try now left.
Qed.

Lemma runIndexerProcess_relaunches_witness :
  let w := constructedWorld true installedEnvironment in
  let w' := worldAfter (runIndexerProcess crashesTwice 1%N "/tmp/sourcetrail.log") w in
  exists n : nat,
    (n <= length crashesTwice)%nat /\
    launches (trace w')
    = launches (trace w)
      ++ repeat (indexerCommandPath w,
                 indexerCommandArguments w 1%N "/tmp/sourcetrail.log") n /\
    (forall i r, crashesTwice !! i = Some r -> (i < n)%nat ->
                 (failedUninterrupted r = true <-> (S i < n)%nat)) /\
    (m_interrupted (task w') = true \/
     exists r, last (take n crashesTwice) = Some r /\ exitCode r = 0).
Proof.
  cbv zeta.
  apply (runIndexerProcess_relaunches_until_success_or_interrupt crashesTwice 1%N
           "/tmp/sourcetrail.log" (constructedWorld true installedEnvironment)).
  vm_compute. reflexivity.
Defined.

(** The loop returns as soon as the oracle shows a success or an interrupt. *)
Lemma relaunchLoop_terminates runs processId commandPath commandArguments :
  forall result w,
    Exists (fun r => failedUninterrupted r = false) runs ->
    exists res w', relaunchLoop runs processId commandPath commandArguments result w
                   = Ok res w'.
Proof.
  induction runs as [| r runs IH]; intros result w Hex; [inversion Hex |].
  destruct (Z.eq_dec result 0) as [E | E];
    [| destruct (m_interrupted (task w)) eqn:Hint].
  1, 2: rewrite relaunchLoop_stop by auto; eauto.
  rewrite relaunchLoop_step by assumption.
  inversion Hex as [? ? Hr | ? ? Hrest]; subst.
  - rewrite relaunchLoop_stop; eauto.
    rewrite afterRun_interrupted by assumption.
    unfold failedUninterrupted in Hr.
    destruct (Z.eqb_spec (exitCode r) 0), (interruptedMeanwhile r); auto; discriminate.
  - apply IH. assumption.
Qed.

(** ** The count of running threads *)

Lemma runIndexerThread_balanced work processId w :
  exists w', runIndexerThread work processId w = Ok tt w' /\
             m_runningThreadCount (task w') = m_runningThreadCount (task w).
Proof.
  unfold runIndexerThread. run. eexists. split; [reflexivity |]. cbn. lia.
Qed.


Lemma runIndexerProcess_unbalanced_when_missing runs processId logFilePath w :
  indexerExecutable w ∉ existingFiles (env w) ->
  exists w', runIndexerProcess runs processId logFilePath w = Ok tt w' /\
             m_interrupted (task w') = true /\
             m_runningThreadCount (task w') = m_runningThreadCount (task w) + 1.
Proof.
  intros Hmiss. rewrite runIndexerProcess_missing by assumption.
  eexists. split; [reflexivity |]. cbn. auto.
Qed.

(** C2 (the code departs from it): with the indexer executable missing,
    a task entered in process mode with two workers ends up, once both
    worker routines have returned, with the interrupt flag set and a
    count of running threads of [2] instead of the [0] it started from;
    neither routine balances the count. *)
Theorem missing_executable_leaves_workers_counted
    (work : string -> Id -> SharedMemory -> SharedMemory) (runs : list ProcessRun) :
  let w := constructedWorld true brokenEnvironment in
  exists w1 w2,
    doEnter w = Ok tt w1 /\
    runLaunchedRoutines work runs w1 = Ok tt w2 /\
    m_runningThreadCount (task w1) = 0 /\
    m_runningThreadCount (task w2) = 2 /\
    m_interrupted (task w2) = true /\
    Forall (fun t => ~ routine_balances_count work runs t w1) (m_processThreads (task w1)).
Proof.
  cbv zeta.
  assert (Henter : exists w1, doEnter (constructedWorld true brokenEnvironment) = Ok tt w1
                              /\ w1 = w1) by (vm_compute; eauto).
  destruct Henter as (w1 & Henter & _). exists w1.
  vm_compute in Henter. injection Henter as <-.
  eexists. split; [reflexivity |]. split.
  - unfold runLaunchedRoutines. run. cbn [for_each runThread m_processThreads]. run.
    rewrite runIndexerProcess_missing by (vm_compute; apply not_elem_of_nil).
    rewrite runIndexerProcess_missing by (vm_compute; apply not_elem_of_nil).
    reflexivity.
  - cbn. repeat split.
    repeat constructor; intros Hbal;
      (edestruct (runIndexerProcess_unbalanced_when_missing runs) as (w' & Hrun & _ & Hcount);
       [| specialize (Hbal w' Hrun); rewrite Hcount in Hbal; cbn in Hbal; lia];
       vm_compute; apply not_elem_of_nil).
Qed.

(** ** Draining the result queues *)

Lemma getNextFinishedProcessId_none w :
  finishedProcessIds (shm w) = [] -> getNextFinishedProcessId w = Ok 0%N w.
Proof. intros H. unfold getNextFinishedProcessId. run. now rewrite H. Qed.

Lemma getNextFinishedProcessId_some w id rest :
  finishedProcessIds (shm w) = id :: rest ->
  getNextFinishedProcessId w = Ok id (with_shm (set_finishedProcessIds rest) w).
Proof. intros H. unfold getNextFinishedProcessId. run. now rewrite H. Qed.

Lemma popIntermediateStorage_some w p s remaining :
  storagesOf p (shm w) = s :: remaining ->
  popIntermediateStorage p w
  = Ok s (with_shm (fun m =>
            set_intermediateStorages (<[p := remaining]> (intermediateStorages m)) m) w).
Proof. intros H. unfold popIntermediateStorage. run. now rewrite H. Qed.

Lemma slotChannel_valid slots id :
  (id =? 0)%N || (N.of_nat (length slots) <? id)%N = false ->
  exists p, slots !! N.to_nat (id - 1) = Some p /\ slotChannel slots id = Some p.
Proof.
  intros H. apply orb_false_elim in H as [H0 Hle].
  apply N.eqb_neq in H0. apply N.ltb_ge in Hle.
  destruct (lookup_lt_is_Some_2 slots (N.to_nat (id - 1))) as [p Hp]; [lia |].
  exists p. split; [assumption |]. unfold slotChannel.
  destruct (N.eqb_spec id 0); [contradiction | assumption].
Qed.

(** The world after one turn of the loop that moved a bundle. *)
Lemma fetchLoop_turn fuel t popped w id rest p s remaining :
  finishedProcessIds (shm w) = id :: rest ->
  slotChannel (managersOf w) id = Some p ->
  storagesOf p (shm w) = s :: remaining ->
  exists w1,
    fetchLoop (S fuel) t popped w
    = (if hd 0 (clock w) - t <? 500 then fetchLoop fuel t (popped + 1) w1
       else Ok (popped + 1) w1) /\
    drainState w1 = moved rest p remaining s (drainState w) /\
    task w1 = task w /\ blackboard w1 = blackboard w /\ env w1 = env w /\
    mergeProgress w1 = mergeProgress w /\
    sp_merged (provider w1) = sp_merged (provider w) /\
    indexerCommands (shm w1) = indexerCommands (shm w) /\
    crashedSourceFilePaths (shm w1) = crashedSourceFilePaths (shm w) /\
    currentlyIndexedSourceFilePaths (shm w1) = currentlyIndexedSourceFilePaths (shm w) /\
    exists text, trace w1 = trace w ++ [EvLogInfo text].
Proof.
  intros Hfin Hslot Hqueue.
  unfold slotChannel in Hslot. destruct (N.eqb_spec id 0) as [| Hid]; [discriminate |].
  pose proof (lookup_lt_Some _ _ _ Hslot) as Hlt. unfold managersOf in *.
  eexists. split.
  - cbn [fetchLoop].
    rewrite (bind_Ok _ _ _ _ _ (getNextFinishedProcessId_some _ _ _ Hfin)).
    run.
    replace (id =? 0)%N with false by (symmetry; now apply N.eqb_neq).
    replace (N.of_nat (length (m_interprocessIntermediateStorageManagers (task w))) <? id)%N
      with false by (symmetry; apply N.ltb_ge; lia).
    cbn [orb]. unfold vector_at. rewrite Hslot. run.
    change (storagesOf p (set_finishedProcessIds rest (shm w))) with (storagesOf p (shm w)).
    rewrite Hqueue. cbn [length]. change (Z.of_nat (S (length remaining)) =? 0) with false.
    cbv iota.
    cbv beta. erewrite popIntermediateStorage_some by exact Hqueue.
    run. unfold deltaMS. destruct (hd 0 (clock w) - t <? 500); reflexivity.
  - cbn. repeat split; eauto.
Qed.

(** What the loop of the drain does, in the words of the specification. *)
Lemma fetchLoop_drains fuel :
  forall t popped w,
    (length (finishedProcessIds (shm w)) < fuel)%nat ->
    exists (k : nat) w',
      fetchLoop fuel t popped w = Ok (popped + Z.of_nat k) w' /\
      drains (managersOf w) t (drainState w) k (drainState w') /\
      task w' = task w /\ blackboard w' = blackboard w /\ env w' = env w /\
      mergeProgress w' = mergeProgress w /\
      sp_merged (provider w') = sp_merged (provider w) /\
      indexerCommands (shm w') = indexerCommands (shm w) /\
      crashedSourceFilePaths (shm w') = crashedSourceFilePaths (shm w) /\
      currentlyIndexedSourceFilePaths (shm w') = currentlyIndexedSourceFilePaths (shm w) /\
      exists texts, trace w' = trace w ++ map EvLogInfo texts.
Proof.
  induction fuel as [| fuel IH]; intros t popped w Hfuel; [lia |].
  destruct (finishedProcessIds (shm w)) as [| id rest] eqn:Hfin.
  { exists 0%nat, w. split.
    - cbn [fetchLoop]. rewrite (bind_Ok _ _ _ _ _ (getNextFinishedProcessId_none _ Hfin)).
      run. cbn. f_equal. lia.
    - split; [apply drains_none_ready; exact Hfin |].
      repeat split; auto. exists []. cbn. now rewrite app_nil_r. }
  destruct ((id =? 0)%N || (N.of_nat (length (managersOf w)) <? id)%N) eqn:Hvalid.
  { exists 0%nat, (with_shm (set_finishedProcessIds rest) w). split.
    - cbn [fetchLoop]. rewrite (bind_Ok _ _ _ _ _ (getNextFinishedProcessId_some _ _ _ Hfin)).
      run. unfold managersOf in Hvalid. rewrite Hvalid. f_equal. lia.
    - split.
      + apply (drains_unknown_slot _ _ (drainState w) id rest); [exact Hfin |].
        apply orb_true_iff in Hvalid as [H | H];
          [left; now apply N.eqb_eq | right; now apply N.ltb_lt].
      + repeat split; auto. exists []. cbn. now rewrite app_nil_r. }
  destruct (slotChannel_valid _ _ Hvalid) as (p & Hlook & Hslot).
  destruct (storagesOf p (shm w)) as [| s remaining] eqn:Hqueue.
  { exists 0%nat, (with_shm (set_finishedProcessIds rest) w). split.
    - cbn [fetchLoop]. rewrite (bind_Ok _ _ _ _ _ (getNextFinishedProcessId_some _ _ _ Hfin)).
      run. unfold managersOf in Hvalid, Hlook. rewrite Hvalid.
      unfold vector_at. rewrite Hlook. run.
      change (storagesOf p (set_finishedProcessIds rest (shm w))) with (storagesOf p (shm w)).
      rewrite Hqueue. cbn. f_equal. lia.
    - split.
      + apply (drains_stale_signal _ _ (drainState w) id rest p); assumption.
      + repeat split; auto. exists []. cbn. now rewrite app_nil_r. }
  destruct (fetchLoop_turn fuel t popped w id rest p s remaining Hfin Hslot Hqueue)
    as (w1 & Hturn & Hstate & Htask & Hbb & Henv & Hmp & Hmerged & Hcmd & Hcrash & Hcur
        & text & Htrace).
  rewrite Hturn. destruct (Z.ltb_spec (hd 0 (clock w) - t) 500) as [Hin | Hout].
  - destruct (IH t (popped + 1) w1) as
      (k & w' & Hrun & Hdr & Htask' & Hbb' & Henv' & Hmp' & Hmerged' & Hcmd' & Hcrash'
       & Hcur' & texts & Htrace').
    { apply (f_equal ds_finished) in Hstate. cbn in Hstate. rewrite Hstate.
      cbn in Hfuel. lia. }
    exists (S k), w'. split; [rewrite Hrun; f_equal; lia |]. split.
    + apply (drains_again _ _ (drainState w) id rest p s remaining); try assumption.
      rewrite <- Hstate. unfold managersOf in *. rewrite <- Htask. exact Hdr.
    + repeat split; try congruence.
      exists (text :: texts). rewrite Htrace', Htrace, <- app_assoc. reflexivity.
  - exists 1%nat, w1. split; [reflexivity |]. split.
    + rewrite Hstate.
      apply (drains_budget_spent _ _ (drainState w) id rest p s remaining); assumption.
    + repeat split; try assumption. exists [text]. exact Htrace.
Qed.

Lemma fetchIntermediateStorages_when_congested w :
  (10 < storageCount (provider w))%nat ->
  fetchIntermediateStorages w
  = Ok true
      (with_provider (mergeSome (hd 0%nat (mergeProgress w)))
         (with_mergeProgress tail
            (with_trace
               (fun t => (t ++ [EvLogInfo ("waiting, too many storages queued: "
                                           +:+ pretty (Z.of_nat (storageCount (provider w))))])
                         ++ [EvSleep 100]) w))).
Proof.
  intros H. unfold fetchIntermediateStorages. run.
  destruct (Z.ltb_spec 10 (Z.of_nat (storageCount (provider w)))); [| lia].
  run. reflexivity.
Qed.

Lemma fetchIntermediateStorages_when_clear w :
  (storageCount (provider w) <= 10)%nat ->
  exists (k : nat) w1 w',
    fetchLoop (S (length (finishedProcessIds (shm w)))) (hd 0 (clock w)) 0
      (with_clock tail w) = Ok (Z.of_nat k) w1 /\
    drains (managersOf w) (hd 0 (clock w)) (drainState (with_clock tail w)) k (drainState w1) /\
    fetchIntermediateStorages w = Ok (negb (k =? 0)%nat) w' /\
    w' = (if (k =? 0)%nat then w1
          else with_blackboard
                 (fun b => <["indexed_source_file_count"%string :=
                               ItemInt (Int.add (blackboardInt w "indexed_source_file_count")
                                          (Z.of_nat k))]> b) w1) /\
    task w1 = task w /\ blackboard w1 = blackboard w /\ env w1 = env w /\
    mergeProgress w1 = mergeProgress w /\
    sp_merged (provider w1) = sp_merged (provider w) /\
    indexerCommands (shm w1) = indexerCommands (shm w) /\
    crashedSourceFilePaths (shm w1) = crashedSourceFilePaths (shm w) /\
    currentlyIndexedSourceFilePaths (shm w1) = currentlyIndexedSourceFilePaths (shm w) /\
    exists texts, trace w1 = trace w ++ map EvLogInfo texts.
Proof.
  intros H.
  destruct (fetchLoop_drains (S (length (finishedProcessIds (shm w)))) (hd 0 (clock w)) 0
              (with_clock tail w)) as (k & w1 & Hloop & Hdr & Hrest); [cbn; lia |].
  rewrite Z.add_0_l in Hloop.
  destruct Hrest as (Htask & Hbb & Hrest).
  exists k, w1,
    (if (k =? 0)%nat then w1
     else with_blackboard
            (fun b => <["indexed_source_file_count"%string :=
                          ItemInt (Int.add (blackboardInt w "indexed_source_file_count")
                                     (Z.of_nat k))]> b) w1).
  split; [exact Hloop |]. split; [exact Hdr |]. split; [| split; [reflexivity | tauto]].
  unfold fetchIntermediateStorages. run.
  destruct (Z.ltb_spec 10 (Z.of_nat (storageCount (provider w)))); [lia |].
  run. rewrite Hloop. destruct k as [| k].
  - cbn. reflexivity.
  - destruct (Z.ltb_spec 0 (Z.of_nat (S k))); [| lia]. run.
    unfold blackboardInt. rewrite Hbb. reflexivity.
Qed.

(** C4: a drain called while more than ten bundles are pending in the
    storage provider pops no bundle and inserts none, takes nothing from
    the finished queue, leaves the blackboard as it is, sleeps [100]
    and reports that work happened. *)
Theorem fetchIntermediateStorages_backpressure (w : World) :
  (10 < storageCount (provider w))%nat ->
  exists w',
    fetchIntermediateStorages w = Ok true w' /\
    shm w' = shm w /\
    sp_storages (provider w') = sp_storages (provider w) /\
    blackboard w' = blackboard w /\
    task w' = task w /\
    clock w' = clock w /\
    trace w' = trace w
               ++ [EvLogInfo ("waiting, too many storages queued: "
                              +:+ pretty (Z.of_nat (storageCount (provider w))));
                   EvSleep 100].
Proof.
  intros H. rewrite fetchIntermediateStorages_when_congested by assumption.
  eexists. split; [reflexivity |]. cbn. repeat split.
  now rewrite <- app_assoc.
Qed.

Lemma fetchIntermediateStorages_backpressure_witness :
  exists w',
    fetchIntermediateStorages (congested workersDone) = Ok true w' /\
    shm w' = shm (congested workersDone) /\
    sp_storages (provider w') = sp_storages (provider (congested workersDone)) /\
    blackboard w' = blackboard (congested workersDone) /\
    task w' = task (congested workersDone) /\
    clock w' = clock (congested workersDone) /\
    trace w' = trace (congested workersDone)
               ++ [EvLogInfo ("waiting, too many storages queued: "
                     +:+ pretty (Z.of_nat (storageCount (provider (congested workersDone)))));
                   EvSleep 100].
Proof.
  apply (fetchIntermediateStorages_backpressure (congested workersDone)).
  vm_compute. lia.
Defined.

(** Where the integer fits, the count grows by exactly the number popped. *)
Lemma indexed_count_grows_by_popped w (k : nat) w' :
  blackboard w'
  = <["indexed_source_file_count"%string :=
        ItemInt (Int.add (blackboardInt w "indexed_source_file_count") (Z.of_nat k))]>
      (blackboard w) ->
  Int.in_range (blackboardInt w "indexed_source_file_count" + Z.of_nat k) ->
  blackboardInt w' "indexed_source_file_count"
  = blackboardInt w "indexed_source_file_count" + Z.of_nat k.
Proof.
  intros Hbb Hrange. unfold blackboardInt at 1. rewrite Hbb, lookup_insert_eq.
  now apply Int_add_exact.
Qed.

(** C6: a drain called with at most ten bundles pending runs the loop
    the specification describes, started at the first clock reading:
    for the number [k] of bundles the loop popped, the call reports
    false and leaves the blackboard alone when [k] is zero, and
    otherwise reports true and stores under [indexed_source_file_count]
    the integer it held plus [k], an [int] sum that is the exact sum
    whenever that fits. *)
Theorem fetchIntermediateStorages_drains (w : World) :
  (storageCount (provider w) <= 10)%nat ->
  exists (k : nat) w',
    drains (managersOf w) (hd 0 (clock w)) (drainState (with_clock tail w)) k (drainState w') /\
    task w' = task w /\
    match k with
    | O => fetchIntermediateStorages w = Ok false w' /\ blackboard w' = blackboard w
    | S _ =>
        fetchIntermediateStorages w = Ok true w' /\
        blackboard w'
        = <["indexed_source_file_count"%string :=
              ItemInt (Int.add (blackboardInt w "indexed_source_file_count") (Z.of_nat k))]>
            (blackboard w) /\
        (Int.in_range (blackboardInt w "indexed_source_file_count" + Z.of_nat k) ->
         blackboardInt w' "indexed_source_file_count"
         = blackboardInt w "indexed_source_file_count" + Z.of_nat k)
    end.
Proof.
  intros H.
  destruct (fetchIntermediateStorages_when_clear w H)
    as (k & w1 & w' & _ & Hdr & Hrun & Hw' & Htask & Hbb & _).
  exists k, w'. destruct k as [| k]; cbn [Nat.eqb negb] in *; subst w'.
  - auto.
  - cbn [task blackboard with_blackboard]. rewrite Hbb.
    split; [exact Hdr |]. split; [exact Htask |]. split; [exact Hrun |].
    split; [reflexivity |].
    apply indexed_count_grows_by_popped. cbn. now rewrite Hbb.
Qed.

Lemma fetchIntermediateStorages_drains_witness :
  exists (k : nat) w',
    drains (managersOf workersDone) (hd 0 (clock workersDone))
      (drainState (with_clock tail workersDone)) k (drainState w') /\
    task w' = task workersDone /\
    match k with
    | O => fetchIntermediateStorages workersDone = Ok false w' /\
           blackboard w' = blackboard workersDone
    | S _ =>
        fetchIntermediateStorages workersDone = Ok true w' /\
        blackboard w'
        = <["indexed_source_file_count"%string :=
              ItemInt (Int.add (blackboardInt workersDone "indexed_source_file_count")
                         (Z.of_nat k))]>
            (blackboard workersDone) /\
        (Int.in_range (blackboardInt workersDone "indexed_source_file_count" + Z.of_nat k) ->
         blackboardInt w' "indexed_source_file_count"
         = blackboardInt workersDone "indexed_source_file_count" + Z.of_nat k)
    end.
Proof.
  apply (fetchIntermediateStorages_drains workersDone). vm_compute. lia.
Defined.

(** A drain that finds nothing ready pops nothing. *)
Lemma drains_nothing_ready slots t d k d' :
  drains slots t d k d' ->
  (ds_finished d = [] \/
   forall id p, id ∈ ds_finished d -> slotChannel slots id = Some p -> channelOf d p = []) ->
  k = 0%nat /\ ds_channels d' = ds_channels d /\ ds_sink d' = ds_sink d.
Proof.
  intros Hdr Hidle.
  assert (Hno : forall id rest p s remaining,
             ds_finished d = id :: rest -> slotChannel slots id = Some p ->
             channelOf d p = s :: remaining -> False).
  { intros id rest p s remaining Hfin Hslot Hqueue.
    destruct Hidle as [Hnil | Hall]; [congruence |].
    rewrite (Hall id p) in Hqueue; [discriminate | | assumption].
    rewrite Hfin. apply list_elem_of_here. }
  destruct Hdr; auto; exfalso; eauto.
Qed.

(** C5 (as amended): while at most ten bundles are pending in the storage
    provider, a drain that finds the finished queue empty, or finds only
    finished ids whose result queues are empty, pops no bundle, inserts
    nothing, leaves the blackboard as it is and reports that nothing
    happened. *)
Theorem fetchIntermediateStorages_idle (w : World) :
  (storageCount (provider w) <= 10)%nat ->
  nothingToDrain w ->
  exists w',
    fetchIntermediateStorages w = Ok false w' /\
    intermediateStorages (shm w') = intermediateStorages (shm w) /\
    sp_storages (provider w') = sp_storages (provider w) /\
    blackboard w' = blackboard w.
Proof.
  intros Hclear Hidle.
  destruct (fetchIntermediateStorages_when_clear w Hclear)
    as (k & w1 & w' & _ & Hdr & Hrun & Hw' & _ & Hbb & _).
  apply drains_nothing_ready in Hdr as (-> & Hch & Hsink); [| exact Hidle].
  cbn in Hrun, Hw', Hch, Hsink. subst w'. eauto.
Qed.

Lemma fetchIntermediateStorages_idle_witness :
  exists w',
    fetchIntermediateStorages (constructedWorld false installedEnvironment) = Ok false w' /\
    intermediateStorages (shm w')
    = intermediateStorages (shm (constructedWorld false installedEnvironment)) /\
    sp_storages (provider w')
    = sp_storages (provider (constructedWorld false installedEnvironment)) /\
    blackboard w' = blackboard (constructedWorld false installedEnvironment).
Proof.
  apply (fetchIntermediateStorages_idle (constructedWorld false installedEnvironment)).
  - vm_compute. lia.
  - left. reflexivity.
Defined.

(** C5 (as worded) fails under backpressure: with eleven bundles pending
    and an empty finished queue the drain reports that work happened. *)
Lemma idle_drain_under_backpressure_reports_work :
  ~ idle_drain_reports_nothing (congested (constructedWorld false installedEnvironment)).
Proof.
  intros Hclaim. destruct Hclaim as (w' & Hrun & _); [left; reflexivity |].
  vm_compute in Hrun. discriminate Hrun.
Qed.

(** ** The update step *)

(** The progress refresh at the head of [doUpdate]. *)
Lemma doUpdate_refresh paths (skip : bool) w :
  progressRepresentable w = true ->
  exists w1,
    (if skip then ret tt else updateIndexingDialog paths) w = Ok tt w1 /\
    shm w1 = shm w /\ provider w1 = provider w /\ blackboard w1 = blackboard w /\
    m_interrupted (task w1) = m_interrupted (task w) /\
    m_runningThreadCount (task w1) = m_runningThreadCount (task w).
Proof.
  intros Hrep. destruct skip.
  - exists w. repeat split.
  - destruct (updateIndexingDialog_total paths w Hrep)
      as (w1 & Hrun & Hshm & Hprov & Hbb & _ & _ & _ & Htask).
    exists w1. rewrite Htask. repeat split; assumption.
Qed.

(** C3 (as amended): with the interrupt flag set, and counts on the
    blackboard whose progress quotient fits an [int], the next update
    fails and leaves the command queue empty; it stores [true] under
    [interrupted_indexing] when it was called with a command pending or
    a worker running, and leaves the blackboard untouched when the queue
    was already empty and no worker was running. *)
Theorem doUpdate_when_interrupted (w : World) :
  m_interrupted (task w) = true ->
  progressRepresentable w = true ->
  exists w',
    doUpdate w = Ok STATE_FAILURE w' /\
    indexerCommands (shm w') = [] /\
    blackboard w'
    = (if (length (indexerCommands (shm w)) =? 0)%nat && (m_runningThreadCount (task w) =? 0)
       then blackboard w
       else <["interrupted_indexing"%string := ItemBool true]> (blackboard w)).
Proof.
  intros Hint Hrep. unfold doUpdate. run.
  match goal with
  | |- exists w', match ?head with Ok _ _ => _ | Err _ => _ end = _ /\ _ =>
      assert (Hhead : exists w1, head = Ok tt w1 /\ shm w1 = shm w /\
                                 blackboard w1 = blackboard w /\
                                 m_interrupted (task w1) = true)
  end.
  { destruct (negb (length (indexerCommands (shm w)) =? m_lastCommandCount (task w))%nat).
    - destruct (length (currentlyIndexedSourceFilePaths (shm w)) =? 0)%nat; cbn [negb].
      + eexists. split; [reflexivity |]. cbn. auto.
      + destruct (doUpdate_refresh (currentlyIndexedSourceFilePaths (shm w)) false w Hrep)
          as (w1 & Hrun & Hshm & _ & Hbb & Hi & _).
        cbv beta. rewrite Hrun. eexists. split; [reflexivity |]. cbn. rewrite Hi. auto.
    - exists w. auto. }
  destruct Hhead as (w1 & -> & Hshm & Hbb & Hi). rewrite Hi.
  destruct ((length (indexerCommands (shm w)) =? 0)%nat && (m_runningThreadCount (task w) =? 0))
    eqn:Hdone.
  - eexists. split; [reflexivity |]. split; [| assumption].
    rewrite Hshm. apply andb_true_iff in Hdone as [Hlen _].
    apply Nat.eqb_eq in Hlen. now destruct (indexerCommands (shm w)).
  - eexists. split; [reflexivity |]. cbn. rewrite Hbb. auto.
Qed.

Lemma doUpdate_when_interrupted_witness :
  exists w',
    doUpdate interruptedWhileBusy = Ok STATE_FAILURE w' /\
    indexerCommands (shm w') = [] /\
    blackboard w'
    = (if (length (indexerCommands (shm interruptedWhileBusy)) =? 0)%nat
          && (m_runningThreadCount (task interruptedWhileBusy) =? 0)
       then blackboard interruptedWhileBusy
       else <["interrupted_indexing"%string := ItemBool true]>
              (blackboard interruptedWhileBusy)).
Proof.
  apply (doUpdate_when_interrupted interruptedWhileBusy); reflexivity.
Defined.

(** C3 (as worded) fails when the interrupt arrives after the work is
    done: with an empty queue and no worker running the update fails
    without writing [interrupted_indexing]. *)
Lemma doUpdate_interrupt_after_completion_not_flagged :
  ~ update_flags_interruption interruptedWhenDone.
Proof.
  intros Hclaim. destruct (Hclaim eq_refl) as (w' & Hrun & Hflag & _).
  vm_compute in Hrun. injection Hrun as <-.
  vm_compute in Hflag. discriminate Hflag.
Qed.

(** ** Leaving the task *)

Lemma with_trace_app l1 l2 w :
  with_trace (fun t => t ++ l2) (with_trace (fun t => t ++ l1) w)
  = with_trace (fun t => t ++ (l1 ++ l2)) w.
Proof. unfold with_trace. cbn. f_equal. symmetry. apply app_assoc. Qed.

Lemma with_trace_nil w : with_trace (fun t => t ++ []) w = w.
Proof. destruct w. unfold with_trace. cbn. f_equal. apply app_nil_r. Qed.

Lemma for_each_join threads w :
  for_each threads join w = Ok tt (with_trace (fun t => t ++ map EvJoin threads) w).
Proof.
  revert w. induction threads as [| x threads IH]; intros w; cbn [for_each map].
  - unfold ret. now rewrite with_trace_nil.
  - unfold bind, join, emit, modify. rewrite IH, with_trace_app. reflexivity.
Qed.

Lemma joined_app t1 t2 : joined (t1 ++ t2) = joined t1 ++ joined t2.
Proof. apply omap_app. Qed.

Lemma joined_joins threads : joined (map EvJoin threads) = threads.
Proof.
  induction threads as [| x l IH]; [reflexivity |].
  unfold joined in *. cbn. now rewrite IH.
Qed.

Lemma joined_logs texts : joined (map EvLogInfo texts) = [].
Proof. induction texts as [| x l IH]; [reflexivity |]. unfold joined in *. cbn. exact IH. Qed.

Lemma channelOf_drainState w p : channelOf (drainState w) p = storagesOf p (shm w).
Proof. reflexivity. Qed.

Lemma channelOf_moved rest p remaining s d q :
  channelOf d p = s :: remaining ->
  channelOf (moved rest p remaining s d) q `suffix_of` channelOf d q.
Proof.
  intros Hq. unfold channelOf, moved. cbn [ds_channels].
  destruct (decide (p = q)) as [<- | Hne].
  - rewrite lookup_insert_eq. cbn. unfold channelOf in Hq. rewrite Hq.
    apply suffix_cons_r. reflexivity.
  - rewrite lookup_insert_ne by assumption. reflexivity.
Qed.

(** What a drain feeds the sink with, and how far it gets. *)
Lemma drains_feed slots t d k d' :
  drains slots t d k d' ->
  (exists gained,
      ds_sink d' = ds_sink d ++ gained /\ length gained = k /\
      Forall (fun s => exists p, s ∈ channelOf d p) gained) /\
  (forall p, channelOf d' p `suffix_of` channelOf d p) /\
  (length (ds_finished d') + k <= length (ds_finished d))%nat.
Proof.
  induction 1 as [d Hfin | d id rest Hfin Hbad | d id rest p Hfin Hslot Hq
                  | d id rest p s remaining Hfin Hslot Hq Hbudget
                  | d id rest p s remaining k d' Hfin Hslot Hq Hbudget Hdr IH].
  - split; [exists []; rewrite app_nil_r; auto |]. split; [reflexivity | lia].
  - split; [exists []; cbn; rewrite app_nil_r; auto |]. split; [reflexivity |].
    rewrite Hfin. cbn. lia.
  - split; [exists []; cbn; rewrite app_nil_r; auto |]. split; [reflexivity |].
    rewrite Hfin. cbn. lia.
  - split; [| split].
    + exists [s]. cbn. repeat split. constructor; [| constructor].
      exists p. rewrite Hq. apply list_elem_of_here.
    + intros q. now apply channelOf_moved.
    + rewrite Hfin. cbn. lia.
  - destruct IH as ((gained & Hsink & Hlen & Hfrom) & Hsuffix & Hmeasure).
    split; [| split].
    + exists (s :: gained). cbn in Hsink. rewrite Hsink, <- app_assoc. cbn.
      repeat split; [now rewrite Hlen |]. constructor.
      * exists p. rewrite Hq. apply list_elem_of_here.
      * eapply Forall_impl; [exact Hfrom |]. cbn. intros x (q & Hx). exists q.
        destruct (channelOf_moved rest p remaining s d q Hq) as (pre & ->).
        apply elem_of_app. now right.
    + intros q. etransitivity; [apply Hsuffix | now apply channelOf_moved].
    + rewrite Hfin. cbn in Hmeasure. cbn. lia.
Qed.

Lemma sinkFedFromChannels_refl w : sinkFedFromChannels w w.
Proof.
  split; [| reflexivity]. exists []. rewrite app_nil_r. auto.
Qed.

Lemma sinkFedFromChannels_trans w1 w2 w3 :
  sinkFedFromChannels w1 w2 -> sinkFedFromChannels w2 w3 -> sinkFedFromChannels w1 w3.
Proof.
  intros ((g1 & Hs1 & Hf1) & Hsuf1) ((g2 & Hs2 & Hf2) & Hsuf2). split.
  - exists (g1 ++ g2). rewrite Hs2, Hs1, app_assoc. split; [reflexivity |].
    apply Forall_app. split; [assumption |].
    eapply Forall_impl; [exact Hf2 |]. cbn. intros x (p & Hx). exists p.
    destruct (Hsuf1 p) as (pre & ->). apply elem_of_app. now right.
  - intros p. etransitivity; [apply Hsuf2 | apply Hsuf1].
Qed.

(** What every call of the drain leaves in place. *)
Lemma fetchIntermediateStorages_keeps w b w' :
  fetchIntermediateStorages w = Ok b w' ->
  task w' = task w /\
  crashedSourceFilePaths (shm w') = crashedSourceFilePaths (shm w) /\
  joined (trace w') = joined (trace w) /\
  sinkFedFromChannels w w'.
Proof.
  intros Hrun.
  destruct (le_lt_dec (storageCount (provider w)) 10) as [Hclear | Hfull].
  - destruct (fetchIntermediateStorages_when_clear w Hclear)
      as (k & w1 & w2 & _ & Hdr & Hrun' & Hw2 & Htask & _ & _ & _ & _ & _ & Hcrash & _
          & texts & Htrace).
    rewrite Hrun in Hrun'. injection Hrun' as _ ->.
    apply drains_feed in Hdr as ((gained & Hsink & _ & Hfrom) & Hsuffix & _).
    assert (sinkFedFromChannels w w1) as Hfed.
    { split; [exists gained; split; [exact Hsink | exact Hfrom] | exact Hsuffix]. }
    assert (joined (trace w1) = joined (trace w)) as Hjoin
      by (rewrite Htrace, joined_app, joined_logs; apply app_nil_r).
    subst w2. destruct (k =? 0)%nat; auto.
  - rewrite fetchIntermediateStorages_when_congested in Hrun by assumption.
    injection Hrun as _ <-. cbn. repeat split.
    + rewrite !joined_app. cbn. now rewrite !app_nil_r.
    + exists []. rewrite app_nil_r. auto.
    + reflexivity.
Qed.

Lemma drainedUntilIdle_keeps w w' :
  drainedUntilIdle w w' ->
  task w' = task w /\
  crashedSourceFilePaths (shm w') = crashedSourceFilePaths (shm w) /\
  joined (trace w') = joined (trace w) /\
  sinkFedFromChannels w w'.
Proof.
  induction 1 as [w w' Hrun | w w1 w' Hrun _ IH].
  - now apply fetchIntermediateStorages_keeps in Hrun.
  - apply fetchIntermediateStorages_keeps in Hrun as (Ht & Hc & Hj & Hf).
    destruct IH as (Ht' & Hc' & Hj' & Hf').
    split; [congruence |]. split; [congruence |]. split; [congruence |].
    eapply sinkFedFromChannels_trans; eassumption.
Qed.

Lemma fetchUntilIdle_sound fuel :
  forall w w', fetchUntilIdle fuel w = Ok tt w' -> drainedUntilIdle w w'.
Proof.
  induction fuel as [| fuel IH]; intros w w' Hrun; [discriminate |].
  cbn [fetchUntilIdle] in Hrun. apply bind_Ok_inv in Hrun as ([|] & w1 & Hfetch & Hrest).
  - eapply idle_later; eauto.
  - injection Hrest as <-. now apply idle_at_once.
Qed.

Lemma addCrashErrors_run crashedFiles :
  forall storage w,
    addCrashErrors crashedFiles storage w
    = Ok {| storedFacts := storedFacts storage;
            storedErrors := storedErrors storage ++ map crashError crashedFiles |}
         (with_trace
            (fun t => t ++ map (fun path => EvLogInfo ("crashed translation unit: " +:+ path))
                            crashedFiles) w).
Proof.
  induction crashedFiles as [| path rest IH]; intros storage w; cbn [addCrashErrors map].
  - unfold ret. rewrite with_trace_nil, app_nil_r. now destruct storage.
  - unfold bind, emit, modify. rewrite IH, with_trace_app. cbn.
    now rewrite <- app_assoc.
Qed.

Lemma reportCrashedFiles_run w :
  reportCrashedFiles w
  = Ok tt
      (match crashedSourceFilePaths (shm w) with
       | [] => w
       | _ :: _ =>
           with_provider
             (fun p => {| sp_storages := sp_storages p
                                         ++ [crashReport (crashedSourceFilePaths (shm w))];
                          sp_merged := sp_merged p |})
             (with_trace
                (fun t => t ++ map (fun path =>
                                      EvLogInfo ("crashed translation unit: " +:+ path))
                                (crashedSourceFilePaths (shm w))) w)
       end).
Proof.
  unfold reportCrashedFiles. run.
  destruct (crashedSourceFilePaths (shm w)) as [| path rest] eqn:E; [reflexivity |].
  cbn [length Nat.eqb negb]. rewrite addCrashErrors_run. reflexivity.
Qed.

Lemma doExit_unfold fuel w :
  doExit fuel w
  = bind (fetchUntilIdle fuel)
      (fun _ => bind reportCrashedFiles
                  (fun _ => Blackboard_set "indexer_count" (ItemInt 0)))
      (threadsJoined w).
Proof.
  unfold doExit. cbv [bind gets modify]. rewrite for_each_join. reflexivity.
Qed.

(** The three stages of a completed [doExit]. *)
Lemma doExit_stages fuel w w' :
  doExit fuel w = Ok tt w' ->
  exists w2,
    drainedUntilIdle (threadsJoined w) w2 /\
    w' = with_blackboard (fun b => <["indexer_count"%string := ItemInt 0]> b)
           (worldAfter reportCrashedFiles w2) /\
    crashedSourceFilePaths (shm w2) = crashedSourceFilePaths (shm w) /\
    m_processThreads (task w2) = [] /\
    joined (trace w2) = joined (trace w) ++ m_processThreads (task w) /\
    sinkFedFromChannels w w2.
Proof.
  intros Hrun. rewrite doExit_unfold in Hrun.
  apply bind_Ok_inv in Hrun as ([] & w2 & Hdrain & Hrest).
  apply bind_Ok_inv in Hrest as ([] & w3 & Hreport & Hset).
  apply fetchUntilIdle_sound in Hdrain.
  destruct (drainedUntilIdle_keeps _ _ Hdrain) as (Htask & Hcrash & Hjoin & Hfed).
  exists w2. split; [exact Hdrain |]. split; [| split; [| split; [| split]]].
  - unfold worldAfter. rewrite Hreport. revert Hset. run. now intros [= <-].
  - rewrite Hcrash. reflexivity.
  - rewrite Htask. reflexivity.
  - rewrite Hjoin. cbn. rewrite joined_app, joined_joins. reflexivity.
  - exact Hfed.
Qed.

(** C7: when [doExit] completes, every thread the task held has been
    joined and dropped, the drain has been called again until it
    reported that nothing happened, the blackboard holds [0] under
    [indexer_count], and, when [M >= 1] crashed files were recorded, the
    storage provider has received after the drain exactly one more
    bundle, which carries exactly [M] errors, one per crashed file in
    order, each fatal and tagged with that file. *)
Theorem doExit_joins_drains_and_reports_crashes (fuel : nat) (w w' : World) :
  doExit fuel w = Ok tt w' ->
  exists w2,
    drainedUntilIdle (threadsJoined w) w2 /\
    joined (trace w') = joined (trace w) ++ m_processThreads (task w) /\
    m_processThreads (task w') = [] /\
    (crashedSourceFilePaths (shm w) <> [] ->
     exists report,
       sp_storages (provider w') = sp_storages (provider w2) ++ [report] /\
       length (storedErrors report) = length (crashedSourceFilePaths (shm w)) /\
       Forall2 (fun path e => filePath e = path /\ translationUnit e = path /\ fatal e = true)
               (crashedSourceFilePaths (shm w)) (storedErrors report)) /\
    blackboard w' !! "indexer_count"%string = Some (ItemInt 0).
Proof.
  intros Hrun.
  destruct (doExit_stages fuel w w' Hrun) as (w2 & Hdrain & -> & Hcrash & Hthreads & Hjoin & _).
  exists w2. split; [exact Hdrain |].
  unfold worldAfter. rewrite reportCrashedFiles_run, Hcrash.
  destruct (crashedSourceFilePaths (shm w)) as [| path rest] eqn:E.
  - cbn. repeat split; try assumption; [congruence | apply lookup_insert_eq].
  - cbn [task trace provider blackboard with_blackboard with_provider with_trace
         sp_storages].
    split; [| split; [exact Hthreads | split; [| apply lookup_insert_eq]]].
    + rewrite joined_app, Hjoin.
      replace (joined (map _ (path :: rest))) with (@nil Thread); [apply app_nil_r |].
      symmetry. generalize (path :: rest). intros l.
      induction l as [| x l IH]; [reflexivity | exact IH].
    + intros _. exists (crashReport (path :: rest)). split; [reflexivity |].
      unfold crashReport. cbn [storedErrors]. split; [apply length_map |].
      generalize (path :: rest). intros l.
      induction l as [| x l IH]; constructor; auto.
Qed.

Lemma doExit_joins_drains_and_reports_crashes_witness :
  let w := workersDone in
  let w' := worldAfter (doExit 2) workersDone in
  exists w2,
    drainedUntilIdle (threadsJoined w) w2 /\
    joined (trace w') = joined (trace w) ++ m_processThreads (task w) /\
    m_processThreads (task w') = [] /\
    (crashedSourceFilePaths (shm w) <> [] ->
     exists report,
       sp_storages (provider w') = sp_storages (provider w2) ++ [report] /\
       length (storedErrors report) = length (crashedSourceFilePaths (shm w)) /\
       Forall2 (fun path e => filePath e = path /\ translationUnit e = path /\ fatal e = true)
               (crashedSourceFilePaths (shm w)) (storedErrors report)) /\
    blackboard w' !! "indexer_count"%string = Some (ItemInt 0).
Proof.
  cbv zeta.
  apply (doExit_joins_drains_and_reports_crashes 2 workersDone).
  vm_compute. reflexivity.
Defined.

(** C10: when [doExit] completes for a task with no crashed file
    recorded, the crash report is a step that changes nothing: the
    storage provider is as the final drain left it, and all it gained
    since [doExit] began was waiting in the result queues of the
    workers. *)
Theorem doExit_without_crashes_inserts_only_drained (fuel : nat) (w w' : World) :
  doExit fuel w = Ok tt w' ->
  crashedSourceFilePaths (shm w) = [] ->
  exists w2,
    drainedUntilIdle (threadsJoined w) w2 /\
    reportCrashedFiles w2 = Ok tt w2 /\
    provider w' = provider w2 /\
    trace w' = trace w2 /\
    sinkFedFromChannels w w'.
Proof.
  intros Hrun Hnone.
  destruct (doExit_stages fuel w w' Hrun) as (w2 & Hdrain & -> & Hcrash & _ & _ & Hfed).
  rewrite Hnone in Hcrash.
  assert (Hreport : reportCrashedFiles w2 = Ok tt w2)
    by (rewrite reportCrashedFiles_run, Hcrash; reflexivity).
  exists w2. unfold worldAfter. rewrite Hreport. cbn. auto.
Qed.

Lemma doExit_without_crashes_inserts_only_drained_witness :
  let w := workersDoneCleanly in
  let w' := worldAfter (doExit 2) workersDoneCleanly in
  exists w2,
    drainedUntilIdle (threadsJoined w) w2 /\
    reportCrashedFiles w2 = Ok tt w2 /\
    provider w' = provider w2 /\
    trace w' = trace w2 /\
    sinkFedFromChannels w w'.
Proof.
  cbv zeta.
  apply (doExit_without_crashes_inserts_only_drained 2 workersDoneCleanly).
  - vm_compute. reflexivity.
  - reflexivity.
Defined.

(** *** Termination of the final drain *)

Lemma storageCount_grows l merged gained :
  (storageCount {| sp_storages := l ++ gained; sp_merged := merged |}
   <= storageCount {| sp_storages := l; sp_merged := merged |} + length gained)%nat.
Proof. unfold storageCount. cbn. rewrite length_app. lia. Qed.

(** With room for every announced bundle, backpressure never sets in and
    the loop ends within one call per finished id, plus one. *)
Lemma fetchUntilIdle_completes fuel :
  forall w,
    (storageCount (provider w) + length (finishedProcessIds (shm w)) <= 10)%nat ->
    (length (finishedProcessIds (shm w)) < fuel)%nat ->
    exists w', fetchUntilIdle fuel w = Ok tt w'.
Proof.
  induction fuel as [| fuel IH]; intros w Hroom Hfuel; [lia |].
  destruct (fetchIntermediateStorages_when_clear w) as
    (k & w1 & w' & _ & Hdr & Hrun & Hw' & _ & _ & _ & _ & Hmerged & _); [lia |].
  cbn [fetchUntilIdle]. rewrite (bind_Ok _ _ _ _ _ Hrun).
  destruct k as [| k]; cbn [Nat.eqb negb] in *; [eexists; reflexivity |].
  apply drains_feed in Hdr as ((gained & Hsink & Hlen & _) & _ & Hmeasure).
  cbn in Hsink, Hmeasure.
  assert (Hprov : provider w' = provider w1) by (subst w'; reflexivity).
  assert (Hshm : shm w' = shm w1) by (subst w'; reflexivity).
  assert (Hcount : (storageCount (provider w1) <= storageCount (provider w) + S k)%nat).
  { pose proof (storageCount_grows (sp_storages (provider w)) (sp_merged (provider w)) gained)
      as Hg.
    unfold storageCount in *. cbn in Hg. rewrite Hsink, Hmerged. lia. }
  apply IH; rewrite ?Hprov, ?Hshm; lia.
Qed.

Lemma doExit_completes w :
  (storageCount (provider w) + length (finishedProcessIds (shm w)) <= 10)%nat ->
  exists w', doExit (S (length (finishedProcessIds (shm w)))) w = Ok tt w'.
Proof.
  intros Hroom. rewrite doExit_unfold.
  destruct (fetchUntilIdle_completes (S (length (finishedProcessIds (shm w))))
              (threadsJoined w)) as (w2 & Hdrain); [exact Hroom | cbn; lia |].
  rewrite (bind_Ok _ _ _ _ _ Hdrain).
  rewrite (bind_Ok _ _ _ _ _ (reportCrashedFiles_run w2)).
  eexists. reflexivity.
Qed.

(** Under backpressure the loop waits for the downstream merge: if that
    never advances, no amount of fuel lets it end. *)
Lemma fetchUntilIdle_waits_for_merge fuel :
  forall w,
    (10 < storageCount (provider w))%nat ->
    mergeProgress w = [] ->
    fetchUntilIdle fuel w = Err OutOfFuel.
Proof.
  induction fuel as [| fuel IH]; intros w Hfull Hstuck; [reflexivity |].
  cbn [fetchUntilIdle].
  rewrite (bind_Ok _ _ _ _ _ (fetchIntermediateStorages_when_congested w Hfull)).
  apply IH.
  - rewrite Hstuck. cbn. unfold storageCount in *. cbn.
    rewrite Nat.add_0_r, Nat.min_r by lia. exact Hfull.
  - cbn. now rewrite Hstuck.
Qed.

(** *** The specification of the drain determines its outcome *)

Lemma slotChannel_Some slots id p :
  slotChannel slots id = Some p -> id <> 0%N /\ (id <= N.of_nat (length slots))%N.
Proof.
  unfold slotChannel. destruct (N.eqb_spec id 0) as [| Hid]; [discriminate |].
  intros H. apply lookup_lt_Some in H. split; [assumption | lia].
Qed.

Lemma drains_deterministic slots t d k1 d1 :
  drains slots t d k1 d1 ->
  forall k2 d2, drains slots t d k2 d2 -> k1 = k2 /\ d1 = d2.
Proof.
  induction 1 as [d Hfin | d id rest Hfin Hbad | d id rest p Hfin Hslot Hq
                  | d id rest p s remaining Hfin Hslot Hq Hbudget
                  | d id rest p s remaining k d' Hfin Hslot Hq Hbudget Hdr IH];
    intros k2 d2 Hother;
    inversion Hother as [? Hfin' | ? id' rest' Hfin' Hbad' | ? id' rest' p' Hfin' Hslot' Hq'
                         | ? id' rest' p' s' remaining' Hfin' Hslot' Hq' Hbudget'
                         | ? id' rest' p' s' remaining' k' ? Hfin' Hslot' Hq' Hbudget' Hdr'];
    subst; try congruence;
    rewrite Hfin in Hfin'; simplify_eq;
    try (apply slotChannel_Some in Hslot as [? ?]; destruct Hbad'; [congruence | lia]);
    try (apply slotChannel_Some in Hslot' as [? ?]; destruct Hbad; [congruence | lia]);
    try (rewrite Hq in Hq'; simplify_eq);
    try lia; auto.
  destruct (IH _ _ Hdr') as [-> ->]. auto.
Qed.

(** * Further properties of the life cycle *)

(** ** Entering the task *)

Lemma launched_nil logFilePath w : launched logFilePath [] w = w.
Proof.
  destruct w as [t ? ? ? ? ? ? ?]. destruct t. unfold launched, with_task. cbn.
  now rewrite !app_nil_r.
Qed.

Lemma launched_cons logFilePath i l w :
  launched logFilePath l (launched logFilePath [i] w) = launched logFilePath (i :: l) w.
Proof.
  destruct w as [t ? ? ? ? ? ? ?]. destruct t. unfold launched, with_task. cbn.
  now rewrite <- !app_assoc.
Qed.

Lemma startIndexer_run logFilePath i w :
  startIndexer logFilePath i w = Ok tt (launched logFilePath [i] w).
Proof. reflexivity. Qed.

Lemma startIndexers_run logFilePath l :
  forall w, for_each l (startIndexer logFilePath) w = Ok tt (launched logFilePath l w).
Proof.
  induction l as [| i l IH]; intros w; cbn [for_each].
  - unfold ret. now rewrite launched_nil.
  - rewrite (bind_Ok _ _ _ _ _ (startIndexer_run logFilePath i w)), IH.
    now rewrite launched_cons.
Qed.

Lemma doEnter_run w :
  doEnter w
  = (if progressRepresentable w
     then Ok tt (launched (logFilePathOf w) (seq 0 (m_processCount (task w)))
                   (with_shm (set_indexerCommands (m_indexerCommandList (task w)))
                      (with_task (set_m_lastCommandCount (length (m_indexerCommandList (task w))))
                         (with_blackboard
                            (fun b => <["indexer_count"%string :=
                               ItemInt (Int.wrap (Z.of_nat (m_processCount (task w))))]> b)
                            (progressPublished []
                               (with_task (set_m_indexingFileCount 0) w))))))
     else Err DivisionOverflow).
Proof.
  unfold doEnter. cbv [bind modify]. rewrite updateIndexingDialog_run.
  change (progressRepresentable (with_task (set_m_indexingFileCount 0) w))
    with (progressRepresentable w).
  destruct (progressRepresentable w); [| reflexivity].
  run. rewrite startIndexers_run. reflexivity.
Qed.

(** What a completed [doEnter] has changed in the task and its surroundings. *)
Lemma doEnter_managers w w' :
  doEnter w = Ok tt w' ->
  managersOf w' = managersOf w ++ map slotOf (seq 0 (m_processCount (task w))) /\
  shm w' = set_indexerCommands (m_indexerCommandList (task w)) (shm w) /\
  m_runningThreadCount (task w') = m_runningThreadCount (task w) /\
  m_interrupted (task w') = m_interrupted (task w) /\
  env w' = env w.
Proof.
  rewrite doEnter_run. destruct (progressRepresentable w); [| discriminate].
  intros [= <-]. repeat split.
Qed.

(** The side condition is not idle: with [536870912] files indexed out
    of [-1], the product wraps to [INT_MIN] and the division faults, in
    the progress update and so in [doEnter]. *)
Lemma doEnter_faults_on_unrepresentable_progress :
  progressRepresentable unrepresentableProgress = false /\
  updateIndexingDialog [] unrepresentableProgress = Err DivisionOverflow /\
  doEnter unrepresentableProgress = Err DivisionOverflow.
Proof. repeat split; vm_compute; reflexivity. Qed.






(** ** The drain, whatever the state *)

(** X3: the drain never faults: the bound check keeps the index into the
    vector of managers in range, the count check keeps the pop off an
    empty queue, and the loop ends before the finished queue is used
    up twice. *)
Theorem fetchIntermediateStorages_is_safe (w : World) :
  exists b w', fetchIntermediateStorages w = Ok b w'.
Proof.
  destruct (le_lt_dec (storageCount (provider w)) 10) as [Hclear | Hfull].
  - destruct (fetchIntermediateStorages_when_clear w Hclear)
      as (k & w1 & w' & _ & _ & Hrun & _). eauto.
  - rewrite fetchIntermediateStorages_when_congested by assumption. eauto.
Qed.

Lemma queued_moved (m : gmap N (list IntermediateStorage)) p s remaining :
  default [] (m !! p) = s :: remaining ->
  (map_fold (fun _ (q : list IntermediateStorage) n => (length q + n)%nat) 0%nat
            (<[p := remaining]> m) + 1
   = map_fold (fun _ (q : list IntermediateStorage) n => (length q + n)%nat) 0%nat m)%nat.
Proof.
  intros Hq. destruct (m !! p) as [q |] eqn:Hp; [| discriminate]. cbn in Hq. subst q.
  rewrite <- (insert_delete_id m p (s :: remaining)) at 2 by assumption.
  rewrite <- (insert_delete_eq m p remaining).
  rewrite !map_fold_insert_L; try apply lookup_delete_eq; try (intros; lia).
  cbn. lia.
Qed.

(** Bundles are conserved by the drain the specification describes. *)
Lemma drains_conserve slots t d k d' :
  drains slots t d k d' ->
  (map_fold (fun _ (q : list IntermediateStorage) n => (length q + n)%nat) 0%nat
            (ds_channels d') + length (ds_sink d')
   = map_fold (fun _ (q : list IntermediateStorage) n => (length q + n)%nat) 0%nat
              (ds_channels d) + length (ds_sink d))%nat.
Proof.
  induction 1 as [d Hfin | d id rest Hfin Hbad | d id rest p Hfin Hslot Hq
                  | d id rest p s remaining Hfin Hslot Hq Hbudget
                  | d id rest p s remaining k d' Hfin Hslot Hq Hbudget Hdr IH];
    try reflexivity.
  - pose proof (queued_moved _ _ _ _ Hq) as Hmove.
    unfold moved. cbn [ds_channels ds_sink]. rewrite length_app. cbn [length].
    unfold Id in *. lia.
  - pose proof (queued_moved _ _ _ _ Hq) as Hmove.
    rewrite IH. unfold moved. cbn [ds_channels ds_sink]. rewrite length_app.
    cbn [length]. unfold Id in *. lia.
Qed.

(** X4: a drain neither loses nor invents a bundle.  What the storage
    provider holds after the call is what it held before followed by
    the bundles gained; each of these was waiting in a result queue,
    queues only lose bundles from their front, the bundles queued and
    the bundles inserted add up to the same number as before, and the
    call takes at least one finished id per bundle gained. *)
Theorem fetchIntermediateStorages_conserves_bundles (w : World) (b : bool) (w' : World) :
  fetchIntermediateStorages w = Ok b w' ->
  exists gained,
    sp_storages (provider w') = sp_storages (provider w) ++ gained /\
    Forall (fun s => exists p, s ∈ storagesOf p (shm w)) gained /\
    (forall p, storagesOf p (shm w') `suffix_of` storagesOf p (shm w)) /\
    (queuedBundles (shm w') + length (sp_storages (provider w'))
     = queuedBundles (shm w) + length (sp_storages (provider w)))%nat /\
    (length (finishedProcessIds (shm w')) + length gained
     <= length (finishedProcessIds (shm w)))%nat.
Proof.
  intros Hrun.
  destruct (le_lt_dec (storageCount (provider w)) 10) as [Hclear | Hfull].
  - destruct (fetchIntermediateStorages_when_clear w Hclear)
      as (k & w1 & w2 & _ & Hdr & Hrun' & Hw2 & _).
    rewrite Hrun in Hrun'. injection Hrun' as _ ->.
    assert (Hshm : shm w2 = shm w1) by (subst w2; now destruct (k =? 0)%nat).
    assert (Hprov : provider w2 = provider w1) by (subst w2; now destruct (k =? 0)%nat).
    pose proof (drains_conserve _ _ _ _ _ Hdr) as Hcons.
    apply drains_feed in Hdr as ((gained & Hsink & Hlen & Hfrom) & Hsuffix & Hmeasure).
    exists gained. rewrite Hshm, Hprov. unfold queuedBundles.
    cbn in Hsink, Hmeasure, Hcons. repeat split; try assumption; try lia.
  - rewrite fetchIntermediateStorages_when_congested in Hrun by assumption.
    injection Hrun as _ <-. exists []. cbn. rewrite app_nil_r.
    repeat split; auto; try lia; try (intros p; reflexivity).
Qed.

(** The drain at an id it cannot serve. *)
Lemma fetchIntermediateStorages_unservable
    (w : World) (id : Id) (rest : list Id) :
  (storageCount (provider w) <= 10)%nat ->
  finishedProcessIds (shm w) = id :: rest ->
  servable w id = false ->
  fetchIntermediateStorages w
  = Ok false (with_shm (set_finishedProcessIds rest) (with_clock tail w)).
Proof.
  intros Hclear Hfin Hserv.
  unfold fetchIntermediateStorages. run.
  destruct (Z.ltb_spec 10 (Z.of_nat (storageCount (provider w)))); [lia |].
  run. rewrite Hfin. cbn [length fetchLoop].
  erewrite (bind_Ok getNextFinishedProcessId)
    by (apply getNextFinishedProcessId_some; exact Hfin).
  run. unfold servable, managersOf in Hserv.
  destruct ((id =? 0)%N
            || (N.of_nat (length (m_interprocessIntermediateStorageManagers (task w))) <? id)%N)
    eqn:Hvalid; [reflexivity |].
  destruct (slotChannel_valid _ _ Hvalid) as (p & Hlook & Hslot).
  rewrite Hslot in Hserv. unfold vector_at. rewrite Hlook. run.
  change (storagesOf p (set_finishedProcessIds rest (shm w))) with (storagesOf p (shm w)).
  destruct (storagesOf p (shm w)); [reflexivity | discriminate].
Qed.

(** X5: a finished id that cannot be served ends the drain.  When at
    most ten bundles are pending and the id at the head of the finished
    queue is [0], beyond the slots, or names a process with no bundle
    waiting, the call discards that id, leaves the ids behind it
    unserved, changes nothing else but the clock it read, and reports
    that nothing happened. *)
Theorem fetchIntermediateStorages_stops_at_unservable_id
    (w : World) (id : Id) (rest : list Id) :
  (storageCount (provider w) <= 10)%nat ->
  finishedProcessIds (shm w) = id :: rest ->
  servable w id = false ->
  fetchIntermediateStorages w
  = Ok false (with_shm (set_finishedProcessIds rest) (with_clock tail w)).
Proof. apply fetchIntermediateStorages_unservable. Qed.

(** The time budget bounds the number of bundles a drain pops. *)
Lemma drains_within_budget slots t d k d' :
  drains slots t d k d' ->
  forall j r, ds_clock d !! j = Some r -> 500 <= r - t -> (k <= S j)%nat.
Proof.
  induction 1 as [d Hfin | d id rest Hfin Hbad | d id rest p Hfin Hslot Hq
                  | d id rest p s remaining Hfin Hslot Hq Hbudget
                  | d id rest p s remaining k d' Hfin Hslot Hq Hbudget Hdr IH];
    intros j r Hj Hr; try lia.
  destruct (ds_clock d) as [| r0 readings] eqn:Hclock; [discriminate |].
  destruct j as [| j]; cbn in Hj, Hbudget.
  - injection Hj as ->. lia.
  - specialize (IH j r). cbn in IH. rewrite Hclock in IH. specialize (IH Hj Hr). lia.
Qed.

(** X6: the time budget caps a drain.  If the call reads the clock at
    [t] when it starts and reading number [j] after that shows [500] or
    more elapsed, the call inserts at most [j + 1] bundles, however
    many are ready. *)
Theorem fetchIntermediateStorages_respects_time_budget
    (w : World) (b : bool) (w' : World) (t : Z) (readings : list Z) (j : nat) (r : Z) :
  fetchIntermediateStorages w = Ok b w' ->
  clock w = t :: readings ->
  readings !! j = Some r ->
  500 <= r - t ->
  (length (sp_storages (provider w')) <= length (sp_storages (provider w)) + S j)%nat.
Proof.
  intros Hrun Hclock Hj Hr.
  destruct (le_lt_dec (storageCount (provider w)) 10) as [Hclear | Hfull].
  - destruct (fetchIntermediateStorages_when_clear w Hclear)
      as (k & w1 & w2 & _ & Hdr & Hrun' & Hw2 & _).
    rewrite Hrun in Hrun'. injection Hrun' as _ ->.
    assert (Hprov : provider w2 = provider w1) by (subst w2; now destruct (k =? 0)%nat).
    rewrite Hclock in Hdr. cbn [hd] in Hdr.
    pose proof (drains_within_budget _ _ _ _ _ Hdr j r) as Hk.
    cbn in Hk. rewrite Hclock in Hk. specialize (Hk Hj Hr).
    apply drains_feed in Hdr as ((gained & Hsink & Hlen & _) & _).
    cbn in Hsink. rewrite Hprov, Hsink, length_app. lia.
  - rewrite fetchIntermediateStorages_when_congested in Hrun by assumption.
    injection Hrun as _ <-. cbn. lia.
Qed.

(** ** The update step, case by case *)

Lemma fetchIntermediateStorages_returns w :
  exists b w', fetchIntermediateStorages w = Ok b w'.
Proof.
  destruct (le_lt_dec (storageCount (provider w)) 10) as [Hclear | Hfull].
  - destruct (fetchIntermediateStorages_when_clear w Hclear)
      as (k & w1 & w' & _ & _ & Hrun & _). eauto.
  - rewrite fetchIntermediateStorages_when_congested by assumption. eauto.
Qed.

(** [doUpdate] first refreshes the progress of the files in flight; if
    that goes through, in a world [w1], it takes one of three ways. *)
Lemma doUpdate_cases w :
  (exists w1, refreshed w w1 /\ doUpdate w = updateTail w w1) \/
  (doUpdate w = Err DivisionOverflow /\ progressRepresentable w = false).
Proof.
  unfold doUpdate, updateTail. run.
  match goal with
  | |- context [match ?head with Ok _ _ => _ | Err _ => _ end] =>
      assert (Hhead : (exists w1, head = Ok tt w1 /\ refreshed w w1) \/
                      (head = Err DivisionOverflow /\ progressRepresentable w = false))
  end.
  { destruct (Nat.eqb_spec (length (indexerCommands (shm w))) (m_lastCommandCount (task w)))
      as [Hsame | Hchanged]; cbn [negb].
    - left. exists w. unfold refreshed. repeat split; auto.
    - destruct (length (currentlyIndexedSourceFilePaths (shm w)) =? 0)%nat; cbn [negb].
      + left. eexists. split; [reflexivity |]. unfold refreshed. cbn. repeat split.
      + cbv beta. rewrite updateIndexingDialog_run.
        destruct (progressRepresentable w); [left | right; auto].
        eexists. split; [reflexivity |]. unfold refreshed, managersOf. cbn. repeat split. }
  destruct Hhead as [(w1 & -> & Hfresh) | (-> & Hrep)]; [left | right; auto].
  exists w1. split; [exact Hfresh |].
  destruct Hfresh as (_ & -> & _).
  destruct ((length (indexerCommands (shm w)) =? 0)%nat && (m_runningThreadCount (task w) =? 0));
    [reflexivity |].
  destruct (m_interrupted (task w)); reflexivity.
Qed.

Lemma doUpdate_cases_fits w :
  progressRepresentable w = true ->
  exists w1, refreshed w w1 /\ doUpdate w = updateTail w w1.
Proof.
  intros Hrep. destruct (doUpdate_cases w) as [H | (_ & Hno)]; [exact H | congruence].
Qed.

Lemma doUpdate_cases_inv w state w' :
  doUpdate w = Ok state w' ->
  exists w1, refreshed w w1 /\ updateTail w w1 = Ok state w'.
Proof.
  intros Hrun. destruct (doUpdate_cases w) as [(w1 & Hfresh & Hcases) | (Hno & _)];
    [| congruence].
  exists w1. split; [exact Hfresh | congruence].
Qed.

(** The drain leaves the total on the blackboard alone. *)
Lemma fetchIntermediateStorages_keeps_total w b w' :
  fetchIntermediateStorages w = Ok b w' ->
  blackboardInt w' "source_file_count" = blackboardInt w "source_file_count".
Proof.
  intros Hrun.
  destruct (le_lt_dec (storageCount (provider w)) 10) as [Hclear | Hfull].
  - destruct (fetchIntermediateStorages_when_clear w Hclear)
      as (k & w1 & w2 & _ & _ & Hrun' & Hw2 & _ & Hbb & _).
    rewrite Hrun in Hrun'. injection Hrun' as _ ->. subst w2. unfold blackboardInt.
    destruct (k =? 0)%nat; cbn [blackboard with_blackboard]; rewrite Hbb; [reflexivity |].
    now rewrite lookup_insert_ne by discriminate.
  - rewrite fetchIntermediateStorages_when_congested in Hrun by assumption.
    now injection Hrun as _ <-.
Qed.

(** X7: unless the blackboard holds [-1] under [source_file_count], so
    that no progress quotient is out of range, [doUpdate] completes,
    and it reports [STATE_FAILURE] exactly when the command queue is
    empty with no worker running, or the interrupt flag is set; in
    every other state it reports [STATE_RUNNING]. *)
Theorem doUpdate_fails_iff_done_or_interrupted (w : World) :
  blackboardInt w "source_file_count" <> -1 ->
  exists state w',
    doUpdate w = Ok state w' /\
    state = (if ((length (indexerCommands (shm w)) =? 0)%nat
                 && (m_runningThreadCount (task w) =? 0))
                || m_interrupted (task w)
             then STATE_FAILURE else STATE_RUNNING).
Proof.
  intros Htotal.
  destruct (doUpdate_cases_fits w) as (w1 & ((_ & _ & Hbb & _) & _) & ->);
    [now apply Int_representable_divisor |].
  unfold updateTail.
  destruct ((length (indexerCommands (shm w)) =? 0)%nat && (m_runningThreadCount (task w) =? 0));
    cbn [orb]; [eauto |].
  destruct (m_interrupted (task w)); [eauto |].
  destruct (fetchIntermediateStorages_returns w1) as (fetched & w2 & Hfetch).
  rewrite (bind_Ok _ _ _ _ _ Hfetch).
  assert (Hdialog : exists w3, when fetched (updateIndexingDialog []) w2 = Ok tt w3).
  { destruct fetched; cbn [when]; [| eexists; reflexivity].
    destruct (updateIndexingDialog_total [] w2) as (w3 & Hrun & _); [| eauto].
    apply Int_representable_divisor.
    rewrite (fetchIntermediateStorages_keeps_total _ _ _ Hfetch).
    unfold blackboardInt in *. now rewrite Hbb. }
  destruct Hdialog as (w3 & Hdialog). rewrite (bind_Ok _ _ _ _ _ Hdialog).
  run. eauto.
Qed.

Lemma doUpdate_fails_iff_done_or_interrupted_witness :
  exists state w',
    doUpdate busyWorld = Ok state w' /\
    state = (if ((length (indexerCommands (shm busyWorld)) =? 0)%nat
                 && (m_runningThreadCount (task busyWorld) =? 0))
                || m_interrupted (task busyWorld)
             then STATE_FAILURE else STATE_RUNNING).
Proof.
  apply (doUpdate_fails_iff_done_or_interrupted busyWorld). vm_compute. discriminate.
Defined.

(** X8: the update that ends the task drains nothing.  When the command
    queue is empty and no worker is running, and the counts on the
    blackboard have a progress quotient that fits an [int], [doUpdate]
    reports [STATE_FAILURE] and leaves the shared memory, the storage
    provider and the blackboard exactly as they were: bundles still
    waiting in result queues are left to [doExit], and a pending
    interrupt is not flagged. *)
Theorem doUpdate_when_done_drains_nothing (w : World) :
  indexerCommands (shm w) = [] ->
  m_runningThreadCount (task w) = 0 ->
  progressRepresentable w = true ->
  exists w',
    doUpdate w = Ok STATE_FAILURE w' /\
    shm w' = shm w /\ provider w' = provider w /\ blackboard w' = blackboard w.
Proof.
  intros Hqueue Hcount Hrep.
  destruct (doUpdate_cases_fits w Hrep) as (w1 & ((Hshm & Hprov & Hbb & _) & _) & ->).
  unfold updateTail. rewrite Hqueue, Hcount. cbn. eauto.
Qed.

Lemma doUpdate_when_done_drains_nothing_witness :
  exists w',
    doUpdate workersDone = Ok STATE_FAILURE w' /\
    shm w' = shm workersDone /\ provider w' = provider workersDone /\
    blackboard w' = blackboard workersDone.
Proof.
  apply (doUpdate_when_done_drains_nothing workersDone); reflexivity.
Defined.

Lemma when_updateIndexingDialog (fetched : bool) w w' :
  when fetched (updateIndexingDialog []) w = Ok tt w' ->
  shm w' = shm w /\ provider w' = provider w /\ blackboard w' = blackboard w /\
  env w' = env w /\
  m_interrupted (task w') = m_interrupted (task w) /\
  m_runningThreadCount (task w') = m_runningThreadCount (task w) /\
  m_processThreads (task w') = m_processThreads (task w) /\
  managersOf w' = managersOf w.
Proof.
  destruct fetched; cbn [when]; intros Hrun.
  - apply updateIndexingDialog_inv in Hrun
      as (_ & Hshm & Hprov & Hbb & Henv & _ & _ & Htask).
    unfold managersOf. rewrite Htask. repeat split; assumption.
  - injection Hrun as <-. repeat split.
Qed.

(** The blackboard and the provider after one drain. *)
Lemma fetchIntermediateStorages_counts w b w' :
  fetchIntermediateStorages w = Ok b w' ->
  exists k : nat,
    length (sp_storages (provider w')) = (length (sp_storages (provider w)) + k)%nat /\
    blackboardInt w' "indexed_source_file_count"
    = (if (k =? 0)%nat then blackboardInt w "indexed_source_file_count"
       else Int.add (blackboardInt w "indexed_source_file_count") (Z.of_nat k)).
Proof.
  intros Hrun.
  destruct (le_lt_dec (storageCount (provider w)) 10) as [Hclear | Hfull].
  - destruct (fetchIntermediateStorages_when_clear w Hclear)
      as (k & w1 & w2 & _ & Hdr & Hrun' & Hw2 & _ & Hbb & _).
    rewrite Hrun in Hrun'. injection Hrun' as _ ->.
    apply drains_feed in Hdr as ((gained & Hsink & Hlen & _) & _).
    cbn in Hsink. exists k. subst w2. destruct k as [| k]; cbn [Nat.eqb].
    + rewrite Hsink, length_app, Hlen. unfold blackboardInt. now rewrite Hbb.
    + cbn [provider with_blackboard]. rewrite Hsink, length_app, Hlen.
      split; [reflexivity |]. unfold blackboardInt at 1. cbn [blackboard with_blackboard].
      now rewrite lookup_insert_eq.
  - rewrite fetchIntermediateStorages_when_congested in Hrun by assumption.
    injection Hrun as _ <-. exists 0%nat. cbn. split; [lia | reflexivity].
Qed.

(** X9: the published progress follows the storage provider.  Whatever
    way an update takes, the integer under [indexed_source_file_count]
    grows by the number of bundles that update inserted into the
    storage provider, as long as the sum fits an [int]. *)
Theorem doUpdate_counts_inserted_bundles (w : World) (state : TaskState) (w' : World) :
  doUpdate w = Ok state w' ->
  Int.in_range (blackboardInt w "indexed_source_file_count"
                + Z.of_nat (length (sp_storages (provider w'))
                            - length (sp_storages (provider w)))) ->
  blackboardInt w' "indexed_source_file_count"
  = blackboardInt w "indexed_source_file_count"
    + Z.of_nat (length (sp_storages (provider w')) - length (sp_storages (provider w))).
Proof.
  intros Hrun.
  apply doUpdate_cases_inv in Hrun as (w1 & ((Hshm & Hprov & Hbb & _) & _) & Hrun).
  unfold updateTail in Hrun.
  assert (Hint1 : blackboardInt w1 "indexed_source_file_count"
                  = blackboardInt w "indexed_source_file_count")
    by (unfold blackboardInt; now rewrite Hbb).
  destruct ((length (indexerCommands (shm w)) =? 0)%nat && (m_runningThreadCount (task w) =? 0)).
  { injection Hrun as _ <-. rewrite Hprov, Hint1, Nat.sub_diag. intros _. lia. }
  destruct (m_interrupted (task w)).
  { injection Hrun as _ <-. cbn [provider with_shm with_blackboard].
    rewrite Hprov, Nat.sub_diag. intros _.
    unfold blackboardInt in *. cbn [blackboard with_shm with_blackboard].
    rewrite lookup_insert_ne by discriminate. lia. }
  apply bind_Ok_inv in Hrun as (fetched & w2 & Hfetch & Hrest).
  apply bind_Ok_inv in Hrest as ([] & w3 & Hdialog & Hrest).
  destruct (when_updateIndexingDialog fetched w2 w3 Hdialog) as (_ & Hprov3 & Hbb3 & _).
  revert Hrest. run. intros [= _ <-]. cbn [provider with_provider with_mergeProgress
    with_trace mergeSome sp_storages].
  apply fetchIntermediateStorages_counts in Hfetch as (k & Hlen & Hcount).
  rewrite Hprov3, Hlen, Hprov.
  replace (length (sp_storages (provider w)) + k - length (sp_storages (provider w)))%nat
    with k by lia.
  unfold blackboardInt in *. cbn [blackboard with_provider with_mergeProgress with_trace].
  rewrite Hbb3, Hcount, Hbb. destruct k as [| k]; cbn [Nat.eqb]; intros Hrange.
  - lia.
  - rewrite Int_add_exact; [reflexivity | exact Hrange].
Qed.

(** ** Interrupts *)

(** X10: [terminate] always succeeds; it sets the interrupt flag and
    asks once for the running processes to be killed, and, with counts
    on the blackboard whose progress quotient fits an [int], the update
    that follows reports [STATE_FAILURE] and leaves the command queue
    empty. *)
Theorem terminate_then_doUpdate_fails (w : World) :
  progressRepresentable w = true ->
  exists w1 w',
    terminate w = Ok tt w1 /\
    m_interrupted (task w1) = true /\
    trace w1 = trace w ++ [EvKillRunningProcesses] /\
    doUpdate w1 = Ok STATE_FAILURE w' /\
    indexerCommands (shm w') = [].
Proof.
  intros Hrep.
  set (w1 := with_trace (fun t => t ++ [EvKillRunningProcesses])
               (with_task (set_m_interrupted true) w)).
  destruct (doUpdate_cases_fits w1 Hrep) as (w2 & ((Hshm & _) & _) & Hcases).
  unfold updateTail in Hcases.
  change (m_interrupted (task w1)) with true in Hcases.
  exists w1.
  destruct ((length (indexerCommands (shm w1)) =? 0)%nat
            && (m_runningThreadCount (task w1) =? 0)) eqn:Hdone.
  - exists w2. split; [reflexivity |]. split; [reflexivity |]. split; [reflexivity |].
    split; [exact Hcases |].
    rewrite Hshm. apply andb_true_iff in Hdone as [Hlen _].
    apply Nat.eqb_eq in Hlen. now destruct (indexerCommands (shm w1)).
  - eexists. split; [reflexivity |]. split; [reflexivity |]. split; [reflexivity |].
    split; [exact Hcases | reflexivity].
Qed.

Lemma terminate_then_doUpdate_fails_witness :
  exists w1 w',
    terminate busyWorld = Ok tt w1 /\
    m_interrupted (task w1) = true /\
    trace w1 = trace busyWorld ++ [EvKillRunningProcesses] /\
    doUpdate w1 = Ok STATE_FAILURE w' /\
    indexerCommands (shm w') = [].
Proof.
  apply (terminate_then_doUpdate_fails busyWorld). reflexivity.
Defined.

Lemma relaunchLoop_task runs processId commandPath commandArguments :
  forall result w res w',
    relaunchLoop runs processId commandPath commandArguments result w = Ok res w' ->
    managersOf w' = managersOf w /\
    (m_interrupted (task w) = true -> m_interrupted (task w') = true).
Proof.
  induction runs as [| r runs IH]; intros result w res w' Hrun;
    (destruct (Z.eq_dec result 0) as [E | E];
     [| destruct (m_interrupted (task w)) eqn:Hint]).
  1, 2, 4, 5: rewrite relaunchLoop_stop in Hrun by auto; injection Hrun as _ <-; auto.
  - rewrite relaunchLoop_blocked in Hrun by assumption. discriminate.
  - rewrite relaunchLoop_step in Hrun by assumption.
    apply IH in Hrun as (Hman & _). split; [| discriminate].
    rewrite Hman. unfold afterRun, managersOf. now destruct (interruptedMeanwhile r).
Qed.

Lemma runThread_task work runs t w w' :
  runThread work runs t w = Ok tt w' ->
  managersOf w' = managersOf w /\
  (m_interrupted (task w) = true -> m_interrupted (task w') = true).
Proof.
  destruct t as [processId logFilePath | processId]; cbn [runThread]; intros Hrun.
  - destruct (decide (indexerExecutable w ∈ existingFiles (env w))) as [Hpres | Hmiss].
    + rewrite runIndexerProcess_present in Hrun by assumption.
      apply bind_Ok_inv in Hrun as (res & w1 & Hloop & Hdec).
      apply relaunchLoop_task in Hloop as (Hman & Hflag).
      revert Hdec. run. intros [= <-]. unfold managersOf in *. cbn. split; [exact Hman |].
      exact Hflag.
    + rewrite runIndexerProcess_missing in Hrun by assumption. injection Hrun as <-.
      split; [reflexivity | auto].
  - revert Hrun. unfold runIndexerThread. run. intros [= <-]. split; [reflexivity | auto].
Qed.

Lemma doExit_task fuel w w' :
  doExit fuel w = Ok tt w' -> task w' = set_m_processThreads [] (task w).
Proof.
  intros Hrun. rewrite doExit_unfold in Hrun.
  apply bind_Ok_inv in Hrun as ([] & w2 & Hdrain & Hrest).
  apply bind_Ok_inv in Hrest as ([] & w3 & Hreport & Hset).
  apply fetchUntilIdle_sound, drainedUntilIdle_keeps in Hdrain as (Htask & _).
  rewrite reportCrashedFiles_run in Hreport. injection Hreport as <-.
  revert Hset. run. intros [= <-]. cbn.
  destruct (crashedSourceFilePaths (shm w2)); exact Htask.
Qed.

Lemma doUpdate_task w state w' :
  doUpdate w = Ok state w' ->
  managersOf w' = managersOf w /\ m_interrupted (task w') = m_interrupted (task w).
Proof.
  intros Hrun.
  apply doUpdate_cases_inv in Hrun as (w1 & (_ & (Hint & _ & _ & Hman & _)) & Hrun).
  unfold updateTail in Hrun.
  destruct ((length (indexerCommands (shm w)) =? 0)%nat && (m_runningThreadCount (task w) =? 0)).
  { injection Hrun as _ <-. auto. }
  destruct (m_interrupted (task w)) eqn:Hflag.
  { injection Hrun as _ <-. auto. }
  apply bind_Ok_inv in Hrun as (fetched & w2 & Hfetch & Hrest).
  apply bind_Ok_inv in Hrest as ([] & w3 & Hdialog & Hrest).
  destruct (when_updateIndexingDialog fetched w2 w3 Hdialog)
    as (_ & _ & _ & _ & Hint3 & _ & _ & Hman3).
  apply fetchIntermediateStorages_keeps in Hfetch as (Htask2 & _).
  revert Hrest. run. intros [= _ <-]. unfold managersOf in *. cbn.
  rewrite Hman3, Hint3, Htask2. auto.
Qed.

Lemma handleMessage_run w :
  handleMessage w = Ok tt w \/ handleMessage w = Ok tt (with_task (set_m_interrupted true) w).
Proof. unfold handleMessage. run. destruct (dialogsHiddenByUser (env w)); auto. Qed.

(** What any single call keeps. *)
Lemma perform_keeps c w w' :
  perform c w = Ok tt w' ->
  managersOf w `prefix_of` managersOf w' /\
  (m_interrupted (task w) = true -> m_interrupted (task w') = true).
Proof.
  destruct c as [| | fuel | | | | work runs t]; cbn [perform]; intros Hrun.
  - destruct (doEnter_managers w w' Hrun) as (Hman & _ & _ & Hint & _).
    split; [rewrite Hman; now apply prefix_app_r | congruence].
  - apply bind_Ok_inv in Hrun as (state & w1 & Hupd & Hret). injection Hret as <-.
    apply doUpdate_task in Hupd as (-> & ->). auto.
  - apply doExit_task in Hrun. unfold managersOf. rewrite Hrun. auto.
  - injection Hrun as <-. auto.
  - injection Hrun as <-. auto.
  - destruct (handleMessage_run w) as [H | H]; rewrite H in Hrun; injection Hrun as <-; auto.
  - apply runThread_task in Hrun as (-> & Hflag). auto.
Qed.

Lemma performAll_keeps calls :
  forall w w',
    performAll calls w = Ok tt w' ->
    managersOf w `prefix_of` managersOf w' /\
    (m_interrupted (task w) = true -> m_interrupted (task w') = true).
Proof.
  unfold performAll.
  induction calls as [| c calls IH]; intros w w' Hrun; cbn [for_each] in Hrun.
  - injection Hrun as <-. auto.
  - apply bind_Ok_inv in Hrun as ([] & w1 & Hc & Hrest).
    apply perform_keeps in Hc as (Hpre & Hflag). apply IH in Hrest as (Hpre' & Hflag').
    split; [etransitivity; eassumption | auto].
Qed.

(** X11: an interrupt is never withdrawn.  Once the interrupt flag is
    set it stays set through every run of calls on the task, entering,
    updating, leaving, resetting, terminating, interrupt requests and
    worker routines alike; and an update after any such run reports
    [STATE_FAILURE], provided the counts then on the blackboard have a
    progress quotient that fits an [int]. *)
Theorem interrupt_is_never_withdrawn (calls : list MemberCall) (w w' : World) :
  performAll calls w = Ok tt w' ->
  m_interrupted (task w) = true ->
  m_interrupted (task w') = true /\
  (progressRepresentable w' = true -> exists w'', doUpdate w' = Ok STATE_FAILURE w'').
Proof.
  intros Hrun Hflag. apply performAll_keeps in Hrun as (_ & Hkeep).
  specialize (Hkeep Hflag). split; [exact Hkeep |]. intros Hrep.
  destruct (doUpdate_cases_fits w' Hrep) as (w1 & _ & ->). unfold updateTail.
  rewrite Hkeep. destruct (_ && _); eauto.
Qed.

(** X12: slot ids are stable.  Through every run of calls on the task,
    a finished id that referred to the result queue of some process
    keeps referring to the queue of the same process: managers are only
    ever added behind the ones already held. *)
Theorem slot_ids_are_stable (calls : list MemberCall) (w w' : World) (id p : Id) :
  performAll calls w = Ok tt w' ->
  slotChannel (managersOf w) id = Some p ->
  slotChannel (managersOf w') id = Some p.
Proof.
  intros Hrun. apply performAll_keeps in Hrun as ((more & ->) & _).
  unfold slotChannel. destruct (id =? 0)%N; [auto |].
  intros Hslot. now apply lookup_app_l_Some.
Qed.

(** ** Worker routines *)

(** X13: a supervisor that finds the interrupt flag already set starts
    nothing.  With the executable in place and the flag set on entry,
    [runIndexerProcess] returns whatever the process would have done,
    launches no process, logs nothing, and leaves the count of running
    threads and the rest of the world as they were. *)
Theorem runIndexerProcess_launches_nothing_once_interrupted
    (runs : list ProcessRun) (processId : Id) (logFilePath : string) (w : World) :
  indexerExecutable w ∈ existingFiles (env w) ->
  m_interrupted (task w) = true ->
  exists w',
    runIndexerProcess runs processId logFilePath w = Ok tt w' /\
    trace w' = trace w /\ shm w' = shm w /\
    m_runningThreadCount (task w') = m_runningThreadCount (task w) /\
    m_interrupted (task w') = true.
Proof.
  intros Hpres Hflag. rewrite runIndexerProcess_present by assumption.
  erewrite bind_Ok by (apply relaunchLoop_stop; right; exact Hflag).
  run. eexists. split; [reflexivity |]. cbn. repeat split; try lia; try exact Hflag.
Qed.

Lemma runIndexerProcess_launches_nothing_once_interrupted_witness :
  exists w',
    runIndexerProcess crashesTwice 1%N "/tmp/sourcetrail.log" interruptedWhileBusy = Ok tt w' /\
    trace w' = trace interruptedWhileBusy /\ shm w' = shm interruptedWhileBusy /\
    m_runningThreadCount (task w') = m_runningThreadCount (task interruptedWhileBusy) /\
    m_interrupted (task w') = true.
Proof.
  apply (runIndexerProcess_launches_nothing_once_interrupted crashesTwice 1%N
           "/tmp/sourcetrail.log" interruptedWhileBusy).
  - vm_compute. apply list_elem_of_here.
  - reflexivity.
Defined.

Lemma afterRun_failed r processId commandPath commandArguments w :
  m_interrupted (task w) = false ->
  failedUninterrupted r = true ->
  exitCode r <> 0 /\
  m_interrupted (task (afterRun r processId commandPath commandArguments w)) = false.
Proof.
  intros Hflag Hfailed. apply failedUninterrupted_true in Hfailed as (Hcode & Hint).
  split; [assumption |]. now rewrite afterRun_interrupted.
Qed.

Lemma relaunchLoop_keeps_crashing runs processId commandPath commandArguments :
  forall result w,
    Forall (fun r => failedUninterrupted r = true) runs ->
    result <> 0 -> m_interrupted (task w) = false ->
    relaunchLoop runs processId commandPath commandArguments result w
    = Err ProcessStillRunning.
Proof.
  induction runs as [| r runs IH]; intros result w Hall Hres Hflag.
  - now apply relaunchLoop_blocked.
  - rewrite relaunchLoop_step by assumption.
    apply Forall_cons in Hall as (Hr & Hall).
    destruct (afterRun_failed r processId commandPath commandArguments w Hflag Hr).
    now apply IH.
Qed.

(** X14: a worker process that keeps crashing is relaunched without end.
    With the executable in place and no interrupt, if every observed
    launch exits with a non-zero code, the supervising routine has not
    returned however many launches are observed: it gives up on no
    count of failures. *)
Theorem runIndexerProcess_never_gives_up
    (runs : list ProcessRun) (processId : Id) (logFilePath : string) (w : World) :
  indexerExecutable w ∈ existingFiles (env w) ->
  m_interrupted (task w) = false ->
  Forall (fun r => failedUninterrupted r = true) runs ->
  runIndexerProcess runs processId logFilePath w = Err ProcessStillRunning.
Proof.
  intros Hpres Hflag Hall. rewrite runIndexerProcess_present by assumption.
  unfold bind. rewrite relaunchLoop_keeps_crashing; auto; discriminate.
Qed.

Lemma runIndexerProcess_never_gives_up_witness :
  runIndexerProcess (take 2 crashesTwice) 1%N "/tmp/sourcetrail.log"
    (constructedWorld true installedEnvironment)
  = Err ProcessStillRunning.
Proof.
  apply (runIndexerProcess_never_gives_up (take 2 crashesTwice) 1%N "/tmp/sourcetrail.log"
           (constructedWorld true installedEnvironment)).
  - vm_compute. apply list_elem_of_here.
  - reflexivity.
  - repeat constructor.
Defined.

Lemma relaunchLoop_until_first_stop crashes r rest processId commandPath commandArguments :
  forall result w,
    Forall (fun r => failedUninterrupted r = true) crashes ->
    failedUninterrupted r = false ->
    result <> 0 -> m_interrupted (task w) = false ->
    exists w',
      relaunchLoop (crashes ++ r :: rest) processId commandPath commandArguments result w
      = Ok (exitCode r) w' /\
      launches (trace w')
      = launches (trace w) ++ repeat (commandPath, commandArguments) (S (length crashes)) /\
      m_interrupted (task w') = interruptedMeanwhile r /\
      m_runningThreadCount (task w') = m_runningThreadCount (task w) /\
      shm w' = shm w /\ env w' = env w.
Proof.
  induction crashes as [| c crashes IH]; intros result w Hall Hr Hres Hflag;
    cbn [app]; rewrite relaunchLoop_step by assumption.
  - rewrite relaunchLoop_stop.
    + eexists. split; [reflexivity |]. rewrite afterRun_launches, afterRun_interrupted,
        afterRun_count by assumption.
      repeat split; unfold afterRun; now destruct (interruptedMeanwhile r).
    + rewrite afterRun_interrupted by assumption. unfold failedUninterrupted in Hr.
      destruct (Z.eqb_spec (exitCode r) 0), (interruptedMeanwhile r); auto; discriminate.
  - apply Forall_cons in Hall as (Hc & Hall).
    destruct (afterRun_failed c processId commandPath commandArguments w Hflag Hc)
      as (Hcode & Hflag').
    destruct (IH (exitCode c) (afterRun c processId commandPath commandArguments w)
                Hall Hr Hcode Hflag')
      as (w' & Hrun & Hl & Hint & Hcount & Hshm & Henv).
    exists w'. split; [exact Hrun |].
    rewrite Hl, afterRun_launches, Hint, Hcount, afterRun_count, Hshm, Henv, <- app_assoc.
    repeat split; unfold afterRun; now destruct (interruptedMeanwhile c).
Qed.

Lemma relaunchLoop_ignores_later_runs crashes r rest processId commandPath commandArguments :
  forall result w,
    Forall (fun r => failedUninterrupted r = true) crashes ->
    failedUninterrupted r = false ->
    result <> 0 -> m_interrupted (task w) = false ->
    relaunchLoop (crashes ++ r :: rest) processId commandPath commandArguments result w
    = relaunchLoop (crashes ++ [r]) processId commandPath commandArguments result w.
Proof.
  induction crashes as [| c crashes IH]; intros result w Hall Hr Hres Hflag;
    cbn [app]; rewrite !relaunchLoop_step by assumption.
  - rewrite !relaunchLoop_stop; [reflexivity | |];
      rewrite afterRun_interrupted by assumption; unfold failedUninterrupted in Hr;
      destruct (Z.eqb_spec (exitCode r) 0), (interruptedMeanwhile r); auto; discriminate.
  - apply Forall_cons in Hall as (Hc & Hall).
    destruct (afterRun_failed c processId commandPath commandArguments w Hflag Hc).
    now apply IH.
Qed.

(** X15: the supervisor stops at the first launch that succeeds or is
    interrupted.  With the executable in place and no interrupt on
    entry, if the first [n] launches fail uninterrupted and the next
    one exits with [0] or sees an interrupt, the routine returns after
    exactly [n + 1] launches of the same command line, observes no
    later outcome, leaves the count of running threads as it was, and
    leaves the interrupt flag set exactly when that last launch saw an
    interrupt. *)
Theorem runIndexerProcess_stops_at_first_success_or_interrupt
    (crashes : list ProcessRun) (r : ProcessRun) (rest : list ProcessRun)
    (processId : Id) (logFilePath : string) (w : World) :
  indexerExecutable w ∈ existingFiles (env w) ->
  m_interrupted (task w) = false ->
  Forall (fun r => failedUninterrupted r = true) crashes ->
  failedUninterrupted r = false ->
  exists w',
    runIndexerProcess (crashes ++ r :: rest) processId logFilePath w = Ok tt w' /\
    launches (trace w')
    = launches (trace w)
      ++ repeat (indexerCommandPath w, indexerCommandArguments w processId logFilePath)
                (S (length crashes)) /\
    m_interrupted (task w') = interruptedMeanwhile r /\
    m_runningThreadCount (task w') = m_runningThreadCount (task w) /\
    runIndexerProcess (crashes ++ [r]) processId logFilePath w = Ok tt w'.
Proof.
  intros Hpres Hflag Hall Hr. rewrite !runIndexerProcess_present by assumption.
  unfold bind.
  rewrite (relaunchLoop_ignores_later_runs crashes r rest) by (auto; lia).
  destruct (relaunchLoop_until_first_stop crashes r [] processId (indexerCommandPath w)
              (indexerCommandArguments w processId logFilePath) 1 (countedIn w) Hall Hr)
    as (w1 & Hrun & Hl & Hint & Hcount & _); [lia | exact Hflag |].
  rewrite Hrun. run.
  eexists. split; [reflexivity |]. cbn. cbn in Hl, Hcount. rewrite Hcount. cbn.
  repeat split; try exact Hl; try exact Hint; lia.
Qed.

Lemma runIndexerProcess_stops_at_first_success_or_interrupt_witness :
  let w := constructedWorld true installedEnvironment in
  let crash := {| exitCode := 139; interruptedMeanwhile := false |} in
  let success := {| exitCode := 0; interruptedMeanwhile := false |} in
  exists w',
    runIndexerProcess ([crash] ++ success :: [crash]) 1%N "/tmp/sourcetrail.log" w = Ok tt w' /\
    launches (trace w')
    = launches (trace w)
      ++ repeat (indexerCommandPath w, indexerCommandArguments w 1%N "/tmp/sourcetrail.log")
                (S (length [crash])) /\
    m_interrupted (task w') = interruptedMeanwhile success /\
    m_runningThreadCount (task w') = m_runningThreadCount (task w) /\
    runIndexerProcess ([crash] ++ [success]) 1%N "/tmp/sourcetrail.log" w = Ok tt w'.
Proof.
  cbv zeta.
  apply (runIndexerProcess_stops_at_first_success_or_interrupt
           [{| exitCode := 139; interruptedMeanwhile := false |}]
           {| exitCode := 0; interruptedMeanwhile := false |}
           [{| exitCode := 139; interruptedMeanwhile := false |}]
           1%N "/tmp/sourcetrail.log" (constructedWorld true installedEnvironment)).
  - vm_compute. apply list_elem_of_here.
  - reflexivity.
  - repeat constructor.
  - reflexivity.
Defined.






(** ** Leaving the task, in full *)

(** X17: [doExit] waits for the downstream merge.  While more than ten
    bundles are pending in the storage provider and the merge makes no
    progress, the final drain loop keeps sleeping and [doExit] does not
    complete, however many turns it is given. *)
Theorem doExit_blocks_under_backpressure (fuel : nat) (w : World) :
  (10 < storageCount (provider w))%nat ->
  mergeProgress w = [] ->
  doExit fuel w = Err OutOfFuel.
Proof.
  intros Hfull Hstuck. rewrite doExit_unfold. unfold bind.
  rewrite fetchUntilIdle_waits_for_merge; auto.
Qed.

Lemma doExit_blocks_under_backpressure_witness :
  doExit 50 (congested workersDone) = Err OutOfFuel.
Proof.
  apply (doExit_blocks_under_backpressure 50 (congested workersDone)).
  - vm_compute. lia.
  - reflexivity.
Defined.

(** X18: an unservable finished id makes [doExit] leave bundles behind.
    When at most ten bundles are pending and the id at the head of the
    finished queue is [0], beyond the slots, or names a process with no
    bundle waiting, the final drain loop ends at its first call:
    [doExit] completes with every result queue untouched, the ids
    behind the head still in the finished queue, and the storage
    provider extended by the crash report alone. *)
Theorem doExit_leaves_bundles_behind_unservable_id
    (fuel : nat) (w : World) (id : Id) (rest : list Id) :
  (storageCount (provider w) <= 10)%nat ->
  finishedProcessIds (shm w) = id :: rest ->
  servable w id = false ->
  exists w',
    doExit (S fuel) w = Ok tt w' /\
    intermediateStorages (shm w') = intermediateStorages (shm w) /\
    finishedProcessIds (shm w') = rest /\
    sp_storages (provider w')
    = sp_storages (provider w)
      ++ match crashedSourceFilePaths (shm w) with
         | [] => []
         | _ :: _ => [crashReport (crashedSourceFilePaths (shm w))]
         end.
Proof.
  intros Hclear Hfin Hserv. rewrite doExit_unfold. cbn [fetchUntilIdle]. unfold bind.
  rewrite (fetchIntermediateStorages_unservable (threadsJoined w) id rest Hclear Hfin Hserv).
  unfold ret. rewrite reportCrashedFiles_run.
  run. eexists. split; [reflexivity |].
  cbn. destruct (crashedSourceFilePaths (shm w)); cbn; rewrite ?app_nil_r; auto.
Qed.

Lemma announced_spec slots d :
  announced slots d = true <->
  forall id, In id (ds_finished d) ->
             slotChannel slots id = Some id /\
             (count_occ N.eq_dec (ds_finished d) id <= length (channelOf d id))%nat.
Proof.
  unfold announced. rewrite forallb_forall. split; intros H id Hin; specialize (H id Hin).
  - destruct (slotChannel slots id) as [p |]; [| discriminate].
    apply andb_true_iff in H as (Hp & Hc). apply N.eqb_eq in Hp. apply Nat.leb_le in Hc.
    subst p. auto.
  - destruct H as (-> & Hc). apply andb_true_iff. split; [apply N.eqb_refl |].
    now apply Nat.leb_le.
Qed.

Lemma announced_moved slots d id rest s remaining :
  ds_finished d = id :: rest ->
  channelOf d id = s :: remaining ->
  announced slots d = true ->
  announced slots (moved rest id remaining s d) = true.
Proof.
  intros Hfin Hq Hann. rewrite announced_spec in *. cbn [moved ds_finished].
  intros q Hin. destruct (Hann q) as (Hslot & Hcount); [rewrite Hfin; now right |].
  split; [exact Hslot |]. rewrite Hfin in Hcount. unfold channelOf, moved in *.
  cbn [ds_channels].
  destruct (N.eq_dec id q) as [-> | Hne].
  - rewrite count_occ_cons_eq in Hcount by reflexivity.
    rewrite lookup_insert_eq. rewrite Hq in Hcount. cbn [length] in Hcount.
    simpl. unfold Id in *. lia.
  - rewrite count_occ_cons_neq in Hcount by assumption.
    rewrite lookup_insert_ne by assumption. exact Hcount.
Qed.

(** With trustworthy signals every finished id yields its bundle. *)
Lemma drains_announced slots t d k d' :
  drains slots t d k d' ->
  announced slots d = true ->
  announced slots d' = true /\
  (length (ds_finished d') + k = length (ds_finished d))%nat /\
  (k = 0%nat -> ds_finished d' = []).
Proof.
  induction 1 as [d Hfin | d id rest Hfin Hbad | d id rest p Hfin Hslot Hq
                  | d id rest p s remaining Hfin Hslot Hq Hbudget
                  | d id rest p s remaining k d' Hfin Hslot Hq Hbudget Hdr IH];
    intros Hann.
  - rewrite Hfin. auto.
  - exfalso. rewrite announced_spec in Hann.
    destruct (Hann id) as (Hslot & _); [rewrite Hfin; now left |].
    apply slotChannel_Some in Hslot as (? & ?). destruct Hbad; [contradiction | lia].
  - exfalso. rewrite announced_spec in Hann.
    destruct (Hann id) as (Hslot' & Hcount); [rewrite Hfin; now left |].
    rewrite Hslot in Hslot'. injection Hslot' as ->.
    rewrite Hfin, Hq, count_occ_cons_eq in Hcount by reflexivity. cbn in Hcount. lia.
  - assert (p = id) as ->.
    { rewrite announced_spec in Hann. destruct (Hann id) as (Hslot' & _);
        [rewrite Hfin; now left | congruence]. }
    split; [now apply announced_moved |]. rewrite Hfin. cbn. split; [lia | discriminate].
  - assert (p = id) as ->.
    { rewrite announced_spec in Hann. destruct (Hann id) as (Hslot' & _);
        [rewrite Hfin; now left | congruence]. }
    destruct IH as (Hann' & Hlen & _); [now apply announced_moved |].
    split; [exact Hann' |]. rewrite Hfin. cbn in *. split; [lia | discriminate].
Qed.

Lemma fetchUntilIdle_delivers fuel :
  forall w,
    (storageCount (provider w) + length (finishedProcessIds (shm w)) <= 10)%nat ->
    signalsConsistent w = true ->
    (length (finishedProcessIds (shm w)) < fuel)%nat ->
    exists w' gained,
      fetchUntilIdle fuel w = Ok tt w' /\
      finishedProcessIds (shm w') = [] /\
      sp_storages (provider w') = sp_storages (provider w) ++ gained /\
      length gained = length (finishedProcessIds (shm w)) /\
      (queuedBundles (shm w') + length gained = queuedBundles (shm w))%nat /\
      crashedSourceFilePaths (shm w') = crashedSourceFilePaths (shm w).
Proof.
  induction fuel as [| fuel IH]; intros w Hroom Hcons Hfuel; [lia |].
  destruct (fetchIntermediateStorages_when_clear w) as
    (k & w1 & w' & _ & Hdr & Hrun & Hw' & Htask & _ & _ & _ & Hmerged & _ & Hcrash & _);
    [lia |].
  cbn [fetchUntilIdle]. rewrite (bind_Ok _ _ _ _ _ Hrun).
  assert (Hprov : provider w' = provider w1) by (subst w'; now destruct (k =? 0)%nat).
  assert (Hshm : shm w' = shm w1) by (subst w'; now destruct (k =? 0)%nat).
  assert (Hman : managersOf w' = managersOf w)
    by (subst w'; unfold managersOf; destruct (k =? 0)%nat; cbn; now rewrite Htask).
  pose proof (drains_conserve _ _ _ _ _ Hdr) as Hconserve.
  pose proof (drains_announced _ _ _ _ _ Hdr Hcons) as (Hcons1 & Hlen & Hzero).
  apply drains_feed in Hdr as ((gained & Hsink & Hgained & _) & _).
  cbn in Hsink, Hlen, Hconserve.
  destruct k as [| k]; cbn [Nat.eqb negb].
  - specialize (Hzero eq_refl). cbn in Hzero. rewrite Hzero in Hlen.
    destruct gained; [| discriminate]. rewrite app_nil_r in Hsink. rewrite Hsink in Hconserve.
    exists w', []. split; [reflexivity |]. rewrite Hshm, Hprov, app_nil_r.
    unfold queuedBundles. cbn [length] in *. unfold Id in *.
    repeat split; try assumption; try lia.
  - destruct (IH w') as (w'' & more & Hloop & Hfin & Hsink' & Hmore & Hqueued & Hcrash').
    + rewrite Hprov, Hshm.
      pose proof (storageCount_grows (sp_storages (provider w)) (sp_merged (provider w))
                    gained) as Hg.
      unfold storageCount in *. cbn in Hg. rewrite Hsink, Hmerged. lia.
    + unfold signalsConsistent. rewrite Hman.
      replace (drainState w') with (drainState w1); [exact Hcons1 |].
      unfold drainState. now rewrite Hshm, Hprov, Hw'.
    + rewrite Hshm. lia.
    + exists w'', (gained ++ more). split; [exact Hloop |]. split; [exact Hfin |].
      rewrite Hshm in Hqueued, Hmore, Hcrash'. rewrite Hprov in Hsink'.
      rewrite Hsink in Hsink', Hconserve. rewrite length_app in Hconserve.
      rewrite Hsink', Hcrash', Hcrash, <- app_assoc, length_app.
      unfold queuedBundles in *. unfold Id in *. repeat split; lia.
Qed.

(** X19: with trustworthy signals [doExit] delivers every announced
    bundle.  Suppose every finished id is the slot of the process of
    the same id, no process is announced more often than it has
    bundles waiting, and the bundles pending in the storage provider
    plus the finished ids number at most ten.  Then [doExit] completes
    within one drain call per finished id plus one; it empties the
    finished queue, and the storage provider gains exactly one bundle
    per finished id, taken out of the result queues, followed by the
    crash report if files crashed. *)
Theorem doExit_delivers_every_announced_bundle (w : World) :
  (storageCount (provider w) + length (finishedProcessIds (shm w)) <= 10)%nat ->
  signalsConsistent w = true ->
  exists w' gained,
    doExit (S (length (finishedProcessIds (shm w)))) w = Ok tt w' /\
    finishedProcessIds (shm w') = [] /\
    sp_storages (provider w')
    = sp_storages (provider w) ++ gained
      ++ match crashedSourceFilePaths (shm w) with
         | [] => []
         | _ :: _ => [crashReport (crashedSourceFilePaths (shm w))]
         end /\
    length gained = length (finishedProcessIds (shm w)) /\
    (queuedBundles (shm w') + length gained = queuedBundles (shm w))%nat.
Proof.
  intros Hroom Hcons. rewrite doExit_unfold.
  destruct (fetchUntilIdle_delivers (S (length (finishedProcessIds (shm w))))
              (threadsJoined w)) as (w2 & gained & Hloop & Hfin & Hsink & Hlen & Hq & Hcrash);
    [exact Hroom | exact Hcons | cbn; lia |].
  rewrite (bind_Ok _ _ _ _ _ Hloop), (bind_Ok _ _ _ _ _ (reportCrashedFiles_run w2)).
  cbn in Hsink, Hlen, Hq, Hcrash. rewrite Hcrash.
  run. eexists. exists gained. split; [reflexivity |].
  cbn. destruct (crashedSourceFilePaths (shm w)); cbn;
    rewrite Hsink, ?app_nil_r, <- ?app_assoc; auto.
Qed.

Lemma doExit_delivers_every_announced_bundle_witness :
  exists w' gained,
    doExit (S (length (finishedProcessIds (shm workersDone)))) workersDone = Ok tt w' /\
    finishedProcessIds (shm w') = [] /\
    sp_storages (provider w')
    = sp_storages (provider workersDone) ++ gained
      ++ match crashedSourceFilePaths (shm workersDone) with
         | [] => []
         | _ :: _ => [crashReport (crashedSourceFilePaths (shm workersDone))]
         end /\
    length gained = length (finishedProcessIds (shm workersDone)) /\
    (queuedBundles (shm w') + length gained = queuedBundles (shm workersDone))%nat.
Proof.
  apply (doExit_delivers_every_announced_bundle workersDone).
  - vm_compute. lia.
  - vm_compute. reflexivity.
Defined.

(** ** The published percentage *)

(** X20: the progress is a percentage.  When the blackboard holds
    [0 <= indexed <= total] and [indexed * 100] fits an [int], the
    progress update dispatches [indexed * 100 / total] rounded down, a
    value between [0] and [100] that reaches [100] only when every
    file is indexed; with [total = 0] it dispatches [0]. *)
Theorem updateIndexingDialog_progress_is_a_percentage
    (sourcePaths : list FilePath) (w : World) :
  let total := blackboardInt w "source_file_count" in
  let done := blackboardInt w "indexed_source_file_count" in
  0 <= done <= total ->
  done * 100 <= Int.max_signed ->
  exists w' progress,
    updateIndexingDialog sourcePaths w = Ok tt w' /\
    last (trace w') = Some (EvIndexingStatus true progress) /\
    progress = (if total =? 0 then 0 else done * 100 / total) /\
    0 <= progress <= 100 /\
    (progress = 100 -> done = total).
Proof.
  cbv zeta. unfold blackboardInt, updateIndexingDialog. run.
  set (total := match blackboard w !! "source_file_count"%string with
                | Some (ItemInt z) => z | _ => 0 end).
  set (done := match blackboard w !! "indexed_source_file_count"%string with
               | Some (ItemInt z) => z | _ => 0 end).
  intros Hdone Hfits. destruct (Z.eqb_spec total 0) as [E | E].
  - run. eexists _, 0. split; [reflexivity |]. cbn [trace with_trace with_task].
    rewrite last_snoc. repeat split; try lia.
  - unfold int_div.
    rewrite (Int_div_nonzero _ _ E) by (apply Int_representable_divisor; lia). run.
    assert (Hmul : Int.mul done 100 = done * 100).
    { apply Int_wrap_id. unfold Int.in_range, Int.min_signed, Int.max_signed in *. lia. }
    assert (Hq : 0 <= done * 100 / total <= 100).
    { split; [apply Z.div_pos; lia |]. apply Z.div_le_upper_bound; lia. }
    assert (Hquot : Z.quot (Int.mul done 100) total = done * 100 / total).
    { rewrite Hmul. apply Z.quot_div_nonneg; lia. }
    eexists _, _. split; [reflexivity |]. cbn [trace with_trace with_task].
    rewrite last_snoc, Hquot. repeat split; try lia.
    intros H100. assert (100 * total <= done * 100); [| lia].
    rewrite <- H100 at 1. rewrite (Z.mul_comm _ total). apply Z.mul_div_le. lia.
Qed.

Lemma fetchUntilIdle_again fuel w w1 :
  fetchIntermediateStorages w = Ok true w1 ->
  fetchUntilIdle (S fuel) w = fetchUntilIdle fuel w1.
Proof. intros H. cbn [fetchUntilIdle]. unfold bind. now rewrite H. Qed.

(** X21: [doExit] resumes once the merge catches up.  When more than
    ten bundles are pending but the merge, during the first sleep,
    takes enough of them for the rest and the finished ids to number at
    most ten, [doExit] completes within one drain call per finished id
    plus two. *)
Theorem doExit_resumes_after_merge (w : World) (n : nat) (later : list nat) :
  (10 < storageCount (provider w))%nat ->
  mergeProgress w = n :: later ->
  (storageCount (provider w) - n + length (finishedProcessIds (shm w)) <= 10)%nat ->
  exists w', doExit (S (S (length (finishedProcessIds (shm w))))) w = Ok tt w'.
Proof.
  intros Hfull Hmerge Hroom. rewrite doExit_unfold. unfold bind at 1.
  rewrite (fetchUntilIdle_again _ _ _
             (fetchIntermediateStorages_when_congested (threadsJoined w) Hfull)).
  match goal with
  | |- context [fetchUntilIdle ?fuel ?w1] =>
      destruct (fetchUntilIdle_completes fuel w1) as (w2 & Hloop)
  end.
  - cbn. rewrite Hmerge. cbn. unfold storageCount in *. cbn. lia.
  - cbn. lia.
  - rewrite Hloop. rewrite (bind_Ok _ _ _ _ _ (reportCrashedFiles_run w2)).
    eexists. reflexivity.
Qed.

Lemma doExit_resumes_after_merge_witness :
  exists w',
    doExit (S (S (length (finishedProcessIds (shm congestedButMerging)))))
      congestedButMerging = Ok tt w'.
Proof.
  apply (doExit_resumes_after_merge congestedButMerging 5 []).
  - vm_compute. lia.
  - reflexivity.
  - vm_compute. lia.
Defined.

(** ** Instances *)


Lemma fetchIntermediateStorages_conserves_bundles_witness :
  let w := workersDone in
  let w' := worldAfter fetchIntermediateStorages workersDone in
  exists gained,
    sp_storages (provider w') = sp_storages (provider w) ++ gained /\
    Forall (fun s => exists p, s ∈ storagesOf p (shm w)) gained /\
    (forall p, storagesOf p (shm w') `suffix_of` storagesOf p (shm w)) /\
    (queuedBundles (shm w') + length (sp_storages (provider w'))
     = queuedBundles (shm w) + length (sp_storages (provider w)))%nat /\
    (length (finishedProcessIds (shm w')) + length gained
     <= length (finishedProcessIds (shm w)))%nat.
Proof.
  cbv zeta.
  apply (fetchIntermediateStorages_conserves_bundles workersDone true).
  vm_compute. reflexivity.
Defined.

Lemma fetchIntermediateStorages_stops_at_unservable_id_witness :
  fetchIntermediateStorages staleSignalFirst
  = Ok false (with_shm (set_finishedProcessIds [1%N; 2%N; 1%N])
                (with_clock tail staleSignalFirst)).
Proof.
  apply (fetchIntermediateStorages_stops_at_unservable_id staleSignalFirst 7%N
           [1%N; 2%N; 1%N]).
  - vm_compute. lia.
  - reflexivity.
  - reflexivity.
Defined.

Lemma fetchIntermediateStorages_respects_time_budget_witness :
  (length (sp_storages (provider (worldAfter fetchIntermediateStorages slowDrain)))
   <= length (sp_storages (provider slowDrain)) + 1)%nat.
Proof.
  apply (fetchIntermediateStorages_respects_time_budget slowDrain true
           (worldAfter fetchIntermediateStorages slowDrain) 0 [600; 610; 620] 0 600).
  - vm_compute. reflexivity.
  - reflexivity.
  - reflexivity.
  - lia.
Defined.

Lemma doUpdate_counts_inserted_bundles_witness :
  let w := busyWorld in
  let w' := worldAfter doUpdate busyWorld in
  blackboardInt w' "indexed_source_file_count"
  = blackboardInt w "indexed_source_file_count"
    + Z.of_nat (length (sp_storages (provider w')) - length (sp_storages (provider w))).
Proof.
  cbv zeta.
  apply (doUpdate_counts_inserted_bundles busyWorld STATE_RUNNING).
  - vm_compute. reflexivity.
  - vm_compute. split; discriminate.
Defined.

Lemma interrupt_is_never_withdrawn_witness :
  let calls := [CallHandleMessage; CallUpdate; CallReset; CallEnter] in
  let w' := worldAfter (performAll calls) interruptedWhileBusy in
  m_interrupted (task w') = true /\
  (progressRepresentable w' = true -> exists w'', doUpdate w' = Ok STATE_FAILURE w'').
Proof.
  cbv zeta.
  apply (interrupt_is_never_withdrawn [CallHandleMessage; CallUpdate; CallReset; CallEnter]
           interruptedWhileBusy).
  - vm_compute. reflexivity.
  - reflexivity.
Defined.

Lemma slot_ids_are_stable_witness :
  let calls := [CallEnter; CallUpdate; CallExit 3] in
  slotChannel (managersOf (worldAfter (performAll calls) workersDone)) 2%N = Some 2%N.
Proof.
  cbv zeta.
  apply (slot_ids_are_stable [CallEnter; CallUpdate; CallExit 3] workersDone
           (worldAfter (performAll [CallEnter; CallUpdate; CallExit 3]) workersDone) 2%N 2%N).
  - vm_compute. reflexivity.
  - reflexivity.
Defined.

Lemma doExit_leaves_bundles_behind_unservable_id_witness :
  exists w',
    doExit 1 staleSignalFirst = Ok tt w' /\
    intermediateStorages (shm w') = intermediateStorages (shm staleSignalFirst) /\
    finishedProcessIds (shm w') = [1%N; 2%N; 1%N] /\
    sp_storages (provider w')
    = sp_storages (provider staleSignalFirst)
      ++ match crashedSourceFilePaths (shm staleSignalFirst) with
         | [] => []
         | _ :: _ => [crashReport (crashedSourceFilePaths (shm staleSignalFirst))]
         end.
Proof.
  apply (doExit_leaves_bundles_behind_unservable_id 0 staleSignalFirst 7%N [1%N; 2%N; 1%N]).
  - vm_compute. lia.
  - reflexivity.
  - reflexivity.
Defined.

Lemma updateIndexingDialog_progress_is_a_percentage_witness :
  let total := blackboardInt threeOfFourIndexed "source_file_count" in
  let done := blackboardInt threeOfFourIndexed "indexed_source_file_count" in
  exists w' progress,
    updateIndexingDialog [] threeOfFourIndexed = Ok tt w' /\
    last (trace w') = Some (EvIndexingStatus true progress) /\
    progress = (if total =? 0 then 0 else done * 100 / total) /\
    0 <= progress <= 100 /\
    (progress = 100 -> done = total).
Proof.
  cbv zeta.
  apply (updateIndexingDialog_progress_is_a_percentage [] threeOfFourIndexed).
  - vm_compute. split; discriminate.
  - vm_compute. discriminate.
Defined.
